(** * Queue system (src/App.tsx): ticket store, queue projection, lifecycle

    A shallow embedding of the state layer of the ticket-queueing page:
    the [Ticket] record, the projections computed from the ticket array
    ([inProgress], [sortWaitingQueue], [nextNumber], the daily statistics)
    and the operations that replace the array ([createTicket], [callNext],
    [markDone], [markSkipped], [bumpPriority], [resetAll]).

    Modelling conventions.
    - The React state [tickets] is a [list Ticket]; every handler is a
      function from the array it was rendered with to the next array.
    - JavaScript strings are lists of UTF-16 code units ([list N]).
    - JavaScript numbers that are integers by construction (timestamps
      from [Date.now()], ranks, counts, parsed ticket numbers) are [Z];
      quotients are exact rationals ([Q]).  This agrees with IEEE doubles
      as long as the integers involved stay below 2^52, far beyond any
      millisecond timestamp or queue length.
    - [Date.now()], [crypto.randomUUID()], [window.confirm] and the form
      fields are inputs of the operation that reads them. *)

From Stdlib Require Import String Ascii.
From Stdlib Require Import List ZArith NArith QArith Qround Bool Lia.
From Stdlib Require Import Permutation Sorted.
Import ListNotations.

Local Open Scope Z_scope.

(** ** JavaScript primitives used by App.tsx *)

Module Js.

(** A string value: its sequence of UTF-16 code units. *)
Definition jsstring := list N.

(** ASCII literals. *)
Definition lit (s : String.string) : jsstring :=
  List.map Ascii.N_of_ascii (String.list_ascii_of_string s).

(** [a === b] on strings. *)
Fixpoint str_eqb (a b : jsstring) : bool :=
  match a, b with
  | [], [] => true
  | x :: a', y :: b' => N.eqb x y && str_eqb a' b'
  | _, _ => false
  end.

(** Truthiness of a string: [!s] holds exactly for the empty string. *)
Definition str_truthy (s : jsstring) : bool :=
  match s with [] => false | _ :: _ => true end.

(** ECMAScript WhiteSpace and LineTerminator code points, the characters
    removed by [String.prototype.trim] and skipped by [parseInt]. *)
Definition isWhiteSpace (c : N) : bool :=
  match c with
  | 9 | 10 | 11 | 12 | 13 | 32 | 160 | 5760
  | 8192 | 8193 | 8194 | 8195 | 8196 | 8197 | 8198 | 8199 | 8200 | 8201 | 8202
  | 8232 | 8233 | 8239 | 8287 | 12288 | 65279 => true
  | _ => false
  end%N.

Fixpoint trimStart (s : jsstring) : jsstring :=
  match s with
  | c :: s' => if isWhiteSpace c then trimStart s' else s
  | [] => []
  end.

Definition trimEnd (s : jsstring) : jsstring := rev (trimStart (rev s)).

(** [s.trim()] *)
Definition trim (s : jsstring) : jsstring := trimEnd (trimStart s).

Definition isDigit (c : N) : bool := ((48 <=? c) && (c <=? 57))%N.

(** Values of the longest prefix of decimal digits. *)
Fixpoint digitPrefix (s : jsstring) : list Z :=
  match s with
  | c :: s' => if isDigit c then Z.of_N (c - 48) :: digitPrefix s' else []
  | [] => []
  end.

Definition digitsValue (ds : list Z) : Z :=
  fold_left (fun acc d => acc * 10 + d) ds 0.

(** [Number.parseInt(s, 10)]: skip leading white space, read an optional
    sign and the longest run of decimal digits; [None] stands for NaN. *)
Definition parseInt (s : jsstring) : option Z :=
  let s1 := trimStart s in
  let '(sign, s2) :=
    match s1 with
    | 45%N :: r => (-1, r)
    | 43%N :: r => (1, r)
    | _ => (1, s1)
    end in
  match digitPrefix s2 with
  | [] => None
  | ds => Some (sign * digitsValue ds)
  end.

(** Decimal digits of a natural number, most significant first.  The
    recursion is on a counter that [digitsOfN] starts high enough. *)
Fixpoint digitsFuel (fuel : nat) (n : N) : jsstring :=
  match fuel with
  | O => []
  | S f =>
      if (n <? 10)%N then [(48 + n)%N]
      else digitsFuel f (n / 10)%N ++ [(48 + n mod 10)%N]
  end.

Definition digitsOfN (n : N) : jsstring := digitsFuel (S (N.to_nat n)) n.

(** [String(n)] for an integer [n]. *)
Definition String_ (n : Z) : jsstring :=
  if n <? 0 then 45%N :: digitsOfN (Z.to_N (- n)) else digitsOfN (Z.to_N n).

(** [s.padStart(len, c)] with a one-character filler. *)
Definition padStart (len : nat) (c : N) (s : jsstring) : jsstring :=
  repeat c (len - length s) ++ s.

(** [Math.round(q)]: the nearest integer, halves towards +infinity. *)
Definition Math_round (q : Q) : Z := Qfloor (q + (1 # 2))%Q.

(** [Math.floor(q)] *)
Definition Math_floor (q : Q) : Z := Qfloor q.

(** A number that need not be finite: the value of a numeric form field. *)
Inductive Number : Type :=
| Finite (q : Q)
| NaN
| PosInfinity
| NegInfinity.

Definition Number_isFinite (x : Number) : bool :=
  match x with Finite _ => true | _ => false end.

(** [Array.prototype.sort(cmp)].  ECMAScript requires the sort to be stable
    and, for a consistent comparator, sorted; every such algorithm returns
    the same array, here computed by stable insertion: an element goes in
    front of the first later element it does not compare greater than. *)
Section Sort.
Context {A : Type} (cmp : A -> A -> Z).

Fixpoint sort_insert (x : A) (l : list A) : list A :=
  match l with
  | [] => [x]
  | y :: l' => if cmp x y <=? 0 then x :: y :: l' else y :: sort_insert x l'
  end.

Definition Array_sort (l : list A) : list A := fold_right sort_insert [] l.
End Sort.

End Js.

Import Js.

(** ** Data model (App.tsx, lines 3-18) *)

Inductive Priority : Type := low | medium | high.

Inductive Status : Type := waiting | in_progress | done | skipped.

Record Ticket : Type := mkTicket {
  id : jsstring;
  number : jsstring;
  name : jsstring;
  desc : jsstring;
  priority : Priority;
  etaMinutes : Z;
  status : Status;
  createdAt : Z;
  startedAt : option Z;
  doneAt : option Z;
  result : option jsstring
}.

Definition Priority_eqb (p q : Priority) : bool :=
  match p, q with
  | low, low | medium, medium | high, high => true
  | _, _ => false
  end.

Definition Status_eqb (a b : Status) : bool :=
  match a, b with
  | waiting, waiting | in_progress, in_progress
  | done, done | skipped, skipped => true
  | _, _ => false
  end.

(** ** Pure helpers (lines 35-76) *)

Definition priorityRank (p : Priority) : Z :=
  if Priority_eqb p high then 3
  else if Priority_eqb p medium then 2
  else 1.

Definition pad3 (n : Z) : jsstring := padStart 3 48%N (String_ n).

Definition minutesBetween (a b : Z) : Z :=
  Z.max 0 (Math_round (inject_Z (b - a) / inject_Z 60000)%Q).

(** The comparator passed to [sort] in [sortWaitingQueue]. *)
Definition queueCompare (x y : Ticket) : Z :=
  let pr := priorityRank (priority y) - priorityRank (priority x) in
  if negb (pr =? 0) then pr else createdAt x - createdAt y.

Definition sortWaitingQueue (tickets : list Ticket) : list Ticket :=
  Array_sort queueCompare
    (filter (fun t => Status_eqb (status t) waiting) tickets).

(** ** Projections of the store (lines 107-120) *)

Definition inProgress (tickets : list Ticket) : option Ticket :=
  find (fun t => Status_eqb (status t) in_progress) tickets.

Definition waitingQueue (tickets : list Ticket) : list Ticket :=
  sortWaitingQueue tickets.

(** The accumulator of the [reduce] in [nextNumber]. *)
Definition maxNumber (tickets : list Ticket) : Z :=
  fold_left
    (fun acc t =>
       match parseInt (number t) with
       | Some n => Z.max acc n
       | None => acc
       end)
    tickets 0.

Definition nextNumber (tickets : list Ticket) : jsstring :=
  pad3 (maxNumber tickets + 1).

(** ** Daily statistics (lines 58-66 and 150-173)

    [new Date(ts)] read in local time depends on the browser's time zone;
    its three accessors are the fields of a parameter [tz].  [t] is the
    [Date.now()] read by each statistic. *)

Record LocalTime : Type := mkLocalTime {
  getFullYear : Z -> Z;
  getMonth : Z -> Z;
  getDate : Z -> Z
}.

Section Statistics.
Variable tz : LocalTime.

Definition isSameLocalDay (a b : Z) : bool :=
  (getFullYear tz a =? getFullYear tz b) &&
  (getMonth tz a =? getMonth tz b) &&
  (getDate tz a =? getDate tz b).

Definition todayDone (t : Z) (tickets : list Ticket) : list Ticket :=
  filter
    (fun x => match doneAt x with
              | Some d => isSameLocalDay d t
              | None => false
              end)
    tickets.

Definition waitRows (t : Z) (tickets : list Ticket) : list Ticket :=
  filter
    (fun x => match startedAt x with
              | Some s => isSameLocalDay s t
              | None => false
              end)
    tickets.

Definition avgTodayWaitMinutes (t : Z) (tickets : list Ticket) : Z :=
  let rows := waitRows t tickets in
  if (length rows =? 0)%nat then 0
  else
    let sum :=
      fold_left
        (fun acc x =>
           match startedAt x with
           | Some s => acc + minutesBetween (createdAt x) s
           | None => acc
           end)
        rows 0 in
    Math_round (inject_Z sum / inject_Z (Z.of_nat (length rows)))%Q.

Definition handleRows (t : Z) (tickets : list Ticket) : list Ticket :=
  filter
    (fun x => match startedAt x, doneAt x with
              | Some _, Some d => isSameLocalDay d t
              | _, _ => false
              end)
    tickets.

Definition avgTodayHandleMinutes (t : Z) (tickets : list Ticket) : Z :=
  let rows := handleRows t tickets in
  if (length rows =? 0)%nat then 0
  else
    let sum :=
      fold_left
        (fun acc x =>
           match startedAt x, doneAt x with
           | Some s, Some d => acc + minutesBetween s d
           | _, _ => acc
           end)
        rows 0 in
    Math_round (inject_Z sum / inject_Z (Z.of_nat (length rows)))%Q.
End Statistics.

(** ** Lifecycle operations (lines 175-260) *)

(** The controlled inputs of the apply form. *)
Record ApplyForm : Type := mkForm {
  applyName : jsstring;
  applyDesc : jsstring;
  applyPriority : Priority;
  applyEta : Number
}.

(** [Number.isFinite(applyEta) ? Math.max(1, Math.floor(applyEta)) : 15] *)
Definition normalizeEta (eta : Number) : Z :=
  match eta with
  | Finite q => Z.max 1 (Math_floor q)
  | _ => 15
  end.

(** [createTicket]: [uuid] is the value of [crypto.randomUUID()], [now]
    that of [Date.now()].  The result is the next [tickets] array; the form
    fields and the message shown to the applicant are presentation state. *)
Definition createTicket (form : ApplyForm) (uuid : jsstring) (now : Z)
    (tickets : list Ticket) : list Ticket :=
  let name_ := trim (applyName form) in
  let desc_ := trim (applyDesc form) in
  let eta := normalizeEta (applyEta form) in
  if negb (str_truthy name_) || negb (str_truthy desc_) then tickets
  else
    let newTicket :=
      {| id := uuid;
         number := nextNumber tickets;
         name := name_;
         desc := desc_;
         priority := applyPriority form;
         etaMinutes := eta;
         status := waiting;
         createdAt := now;
         startedAt := None;
         doneAt := None;
         result := None |} in
    tickets ++ [newTicket].

Definition callNext (now : Z) (tickets : list Ticket) : list Ticket :=
  match inProgress tickets with
  | Some _ => tickets
  | None =>
      match waitingQueue tickets with
      | [] => tickets
      | next :: _ =>
          map (fun t =>
                 if str_eqb (id t) (id next)
                 then {| id := id t; number := number t; name := name t;
                         desc := desc t; priority := priority t;
                         etaMinutes := etaMinutes t;
                         status := in_progress;
                         createdAt := createdAt t;
                         startedAt := Some now;
                         doneAt := doneAt t; result := result t |}
                 else t)
              tickets
      end
  end.

(** [currentResultDraft] is the text of the result box. *)
Definition markDone (currentResultDraft : jsstring) (now : Z)
    (tickets : list Ticket) : list Ticket :=
  match inProgress tickets with
  | None => tickets
  | Some cur =>
      let result_ := trim currentResultDraft in
      map (fun t =>
             if str_eqb (id t) (id cur)
             then {| id := id t; number := number t; name := name t;
                     desc := desc t; priority := priority t;
                     etaMinutes := etaMinutes t;
                     status := done;
                     createdAt := createdAt t;
                     startedAt := startedAt t;
                     doneAt := Some now; result := Some result_ |}
             else t)
          tickets
  end.

Definition markSkipped (tickets : list Ticket) : list Ticket :=
  match inProgress tickets with
  | None => tickets
  | Some cur =>
      map (fun t =>
             if str_eqb (id t) (id cur)
             then {| id := id t; number := number t; name := name t;
                     desc := desc t; priority := priority t;
                     etaMinutes := etaMinutes t;
                     status := skipped;
                     createdAt := createdAt t;
                     startedAt := startedAt t;
                     doneAt := doneAt t; result := result t |}
             else t)
          tickets
  end.

Definition bumpPriority (id_ : jsstring) (tickets : list Ticket) :
    list Ticket :=
  map (fun t =>
         if negb (str_eqb (id t) id_) then t
         else
           let next :=
             if Priority_eqb (priority t) low then medium
             else if Priority_eqb (priority t) medium then high
             else high in
           {| id := id t; number := number t; name := name t;
              desc := desc t; priority := next;
              etaMinutes := etaMinutes t; status := status t;
              createdAt := createdAt t; startedAt := startedAt t;
              doneAt := doneAt t; result := result t |})
      tickets.

(** [ok] is the answer to [window.confirm]. *)
Definition resetAll (ok : bool) (tickets : list Ticket) : list Ticket :=
  if negb ok then tickets else [].

(** ** The store as a state machine *)

Inductive Op : Type :=
| Create (form : ApplyForm) (uuid : jsstring) (now : Z)
| CallNext (now : Z)
| Complete (draft : jsstring) (now : Z)
| Skip
| Bump (id_ : jsstring)
| Reset (ok : bool).

Definition step (o : Op) (tickets : list Ticket) : list Ticket :=
  match o with
  | Create form uuid now => createTicket form uuid now tickets
  | CallNext now => callNext now tickets
  | Complete draft now => markDone draft now tickets
  | Skip => markSkipped tickets
  | Bump i => bumpPriority i tickets
  | Reset ok => resetAll ok tickets
  end.

(** [crypto.randomUUID()] returns an identifier that no stored ticket
    carries: the one assumption made about the environment. *)
Definition uuid_fresh (o : Op) (tickets : list Ticket) : bool :=
  match o with
  | Create _ uuid _ => negb (existsb (fun t => str_eqb (id t) uuid) tickets)
  | _ => true
  end.

Definition is_reset (o : Op) : bool :=
  match o with Reset _ => true | _ => false end.

(** Stores reachable from the empty store. *)
Inductive reachable : list Ticket -> Prop :=
| reach_empty : reachable []
| reach_step (o : Op) (s : list Ticket) :
    reachable s -> uuid_fresh o s = true -> reachable (step o s).

Definition run (ops : list Op) (s : list Ticket) : list Ticket :=
  fold_left (fun acc o => step o acc) ops s.

Fixpoint fresh_run (ops : list Op) (s : list Ticket) : bool :=
  match ops with
  | [] => true
  | o :: ops' => uuid_fresh o s && fresh_run ops' (step o s)
  end.

(** The tickets a step adds to the array. *)
Definition createdBy (o : Op) (s : list Ticket) : list Ticket :=
  match o with
  | Create _ _ _ => skipn (length s) (step o s)
  | _ => []
  end.

(** Every ticket created along a run, in order of creation. *)
Fixpoint everCreated (ops : list Op) (s : list Ticket) : list Ticket :=
  match ops with
  | [] => []
  | o :: ops' => createdBy o s ++ everCreated ops' (step o s)
  end.

(** The numeric value of a ticket's display number (0 when it has none). *)
Definition numberValue (t : Ticket) : Z :=
  match parseInt (number t) with Some n => n | None => 0 end.

Definition is_waiting (t : Ticket) : bool := Status_eqb (status t) waiting.
Definition is_in_progress (t : Ticket) : bool :=
  Status_eqb (status t) in_progress.
Definition is_terminal (t : Ticket) : bool :=
  Status_eqb (status t) done || Status_eqb (status t) skipped.

(** ** Display helpers, queries and button states
    (lines 49-56, 128-143, 175-206, 1233, 1431) *)

(** [a % b] for a non-zero [b]: the remainder has the sign of [a]. *)
Definition js_rem (a b : Z) : Z := Z.rem a b.

(** [formatDurationFrom]: the literals are U+521A U+521A ("just now"),
    " " U+5206 U+949F (minutes) and " " U+5C0F U+65F6 (hours). *)
Definition formatDurationFrom (ts now : Z) : jsstring :=
  let mins := Z.max 0 (Math_floor (inject_Z (now - ts) / inject_Z 60000)%Q) in
  if mins <? 1 then [21018; 21018]%N
  else if mins <? 60 then String_ mins ++ [32; 20998; 38047]%N
  else
    let h := Math_floor (inject_Z mins / inject_Z 60)%Q in
    let m := js_rem mins 60 in
    if m =? 0 then String_ h ++ [32; 23567; 26102]%N
    else String_ h ++ [32; 23567; 26102; 32]%N
         ++ String_ m ++ [32; 20998; 38047]%N.

(** [Array.prototype.findIndex]: -1 when no element satisfies [p]. *)
Fixpoint findIndex {A : Type} (p : A -> bool) (l : list A) : Z :=
  match l with
  | [] => -1
  | x :: l' =>
      if p x then 0
      else let i := findIndex p l' in if i <? 0 then -1 else i + 1
  end.

(** [s.startsWith(prefix)] *)
Fixpoint startsWith (s prefix : jsstring) {struct prefix} : bool :=
  match prefix, s with
  | [], _ => true
  | c :: prefix', d :: s' => N.eqb c d && startsWith s' prefix'
  | _ :: _, [] => false
  end.

(** The ticket looked up by the number typed in the query box. *)
Definition queriedTicket (queryNumber : jsstring) (tickets : list Ticket) :
    option Ticket :=
  let nn := trim queryNumber in
  if negb (str_truthy nn) then None
  else find (fun t => str_eqb (number t) nn) tickets.

(** [None] is [null]: nothing is shown. *)
Definition queriedAheadCount (queryNumber : jsstring)
    (tickets : list Ticket) : option Z :=
  match queriedTicket queryNumber tickets with
  | None => None
  | Some q =>
      if negb (Status_eqb (status q) waiting) then Some 0
      else
        let idx :=
          findIndex (fun t => str_eqb (id t) (id q)) (waitingQueue tickets) in
        let aheadInWaiting := if 0 <=? idx then idx else 0 in
        let hasInProgress :=
          match inProgress tickets with Some _ => 1 | None => 0 end in
        Some (aheadInWaiting + hasInProgress)
  end.

(** The local [ahead] of [createTicket]. *)
Definition createAhead (tickets : list Ticket) : Z :=
  let hasInProgress :=
    match inProgress tickets with Some _ => 1 | None => 0 end in
  let waitingCountBefore :=
    Z.of_nat
      (length (filter (fun t => Status_eqb (status t) waiting) tickets)) in
  waitingCountBefore + hasInProgress.

(** The message [createTicket] leaves in [applySuccessMsg]: the request to
    fill in name and description, or the confirmation with the number
    taken and the count of people ahead. *)
Definition createTicketMsg (form : ApplyForm) (tickets : list Ticket) :
    jsstring :=
  let name_ := trim (applyName form) in
  let desc_ := trim (applyDesc form) in
  if negb (str_truthy name_) || negb (str_truthy desc_) then
    [35831; 20808; 22635; 20889; 65306; 22995; 21517; 12289;
     20107; 39033; 25551; 36848; 12290]%N
  else
    [21462; 21495; 25104; 21151; 65292; 20320; 30340; 21495; 30721;
     26159; 32]%N
    ++ nextNumber tickets
    ++ [65292; 21069; 38754; 36824; 26377; 32]%N
    ++ String_ (createAhead tickets)
    ++ [32; 20154; 22312; 31561; 24453; 12290]%N.

(** The prefix U+53D6 U+53F7 U+6210 U+529F by which the page tells a
    confirmation from a warning. *)
Definition successPrefix : jsstring := [21462; 21495; 25104; 21151]%N.

(** [disabled] of the call-next button and of a row's bump button. *)
Definition callNextDisabled (tickets : list Ticket) : bool :=
  match inProgress tickets with Some _ => true | None => false end
  || (length (waitingQueue tickets) =? 0)%nat.

Definition bumpDisabled (t : Ticket) : bool := Priority_eqb (priority t) high.

(** ** Where the page calls [bumpPriority] (lines 1347-1431)

    The only call, [bumpPriority(t.id)], is the button of a row of the
    waiting-queue table, one row for each [t] of [waitingQueue]: the id
    passed is the id of a ticket of the waiting queue.  The other handlers
    are called without argument. *)
Definition offered (o : Op) (tickets : list Ticket) : bool :=
  match o with
  | Bump i => existsb (fun t => str_eqb (id t) i) (waitingQueue tickets)
  | _ => true
  end.

(** A sequence of operations the page can perform without reset: each
    one is offered in the store it is applied to, and each new id is
    fresh. *)
Fixpoint offered_run (ops : list Op) (tickets : list Ticket) : bool :=
  match ops with
  | [] => true
  | o :: ops' =>
      negb (is_reset o) && uuid_fresh o tickets && offered o tickets
      && offered_run ops' (step o tickets)
  end.

(** ** Vocabulary of the statements *)

(** Identifiers are pairwise distinct (section 3: [id] is unique). *)
Definition ids_unique (s : list Ticket) : Prop := NoDup (map id s).

(** [x] may stand in front of [y] in the waiting queue: higher rank first,
    equal ranks by earlier creation. *)
Definition before (x y : Ticket) : Prop :=
  priorityRank (priority y) < priorityRank (priority x) \/
  (priorityRank (priority x) = priorityRank (priority y) /\
   createdAt x <= createdAt y).

(** Same rank and same creation time: the sort may not reorder such tickets. *)
Definition sameKey (x y : Ticket) : bool :=
  (priorityRank (priority x) =? priorityRank (priority y)) &&
  (createdAt x =? createdAt y).

(** The record a ticket becomes at each transition. *)
Definition started (now : Z) (t : Ticket) : Ticket :=
  {| id := id t; number := number t; name := name t; desc := desc t;
     priority := priority t; etaMinutes := etaMinutes t;
     status := in_progress; createdAt := createdAt t;
     startedAt := Some now; doneAt := doneAt t; result := result t |}.

Definition completed (text : jsstring) (now : Z) (t : Ticket) : Ticket :=
  {| id := id t; number := number t; name := name t; desc := desc t;
     priority := priority t; etaMinutes := etaMinutes t;
     status := done; createdAt := createdAt t;
     startedAt := startedAt t; doneAt := Some now; result := Some text |}.

Definition passed (t : Ticket) : Ticket :=
  {| id := id t; number := number t; name := name t; desc := desc t;
     priority := priority t; etaMinutes := etaMinutes t;
     status := skipped; createdAt := createdAt t;
     startedAt := startedAt t; doneAt := doneAt t; result := result t |}.

Definition nextPriority (p : Priority) : Priority :=
  match p with low => medium | medium => high | high => high end.

Definition withPriority (p : Priority) (t : Ticket) : Ticket :=
  {| id := id t; number := number t; name := name t; desc := desc t;
     priority := p; etaMinutes := etaMinutes t;
     status := status t; createdAt := createdAt t;
     startedAt := startedAt t; doneAt := doneAt t; result := result t |}.

(** The fields a ticket must carry in each status (section 3). *)
Definition lifecycle_ok (t : Ticket) : Prop :=
  match status t with
  | waiting => startedAt t = None /\ doneAt t = None /\ result t = None
  | in_progress => startedAt t <> None /\ doneAt t = None /\ result t = None
  | done => startedAt t <> None /\ doneAt t <> None /\ result t <> None
  | skipped => startedAt t <> None /\ doneAt t = None /\ result t = None
  end.

Definition sumZ (l : list Z) : Z := fold_right Z.add 0 l.

(** A record update that leaves the identifying fields alone. *)
Definition keeps_identity (g : Ticket -> Ticket) : Prop :=
  forall t, id (g t) = id t /\ number (g t) = number t /\
            name (g t) = name t /\ desc (g t) = desc t /\
            etaMinutes (g t) = etaMinutes t /\ createdAt (g t) = createdAt t.

Definition is_create (o : Op) : bool :=
  match o with Create _ _ _ => true | _ => false end.

(** A store changed in at most one record, at the same place. *)
Definition one_record_changed (t t' : Ticket) (s s' : list Ticket) : Prop :=
  exists l1 l2, s = l1 ++ t :: l2 /\ s' = l1 ++ t' :: l2.

(** The form passes the check of [createTicket]. *)
Definition valid_form (f : ApplyForm) : Prop :=
  trim (applyName f) <> [] /\ trim (applyDesc f) <> [].

Definition confirmed_reset (o : Op) : bool :=
  match o with Reset true => true | _ => false end.

(** Display numbers grow along the array and are the padded form of their
    value. *)
Definition numbers_ok (s : list Ticket) : Prop :=
  StronglySorted Z.lt (map numberValue s) /\
  Forall (fun t => number t = pad3 (numberValue t) /\ 1 <= numberValue t) s.

(** [r] is the integer nearest to [num / den], halves rounded up. *)
Definition nearest_to (num den r : Z) : Prop :=
  2 * den * r <= 2 * num + den < 2 * den * (r + 1).

(** Whole minutes a ticket waited, and was handled, as the statistics
    count them. *)
Definition waitMinutes (x : Ticket) : Z :=
  match startedAt x with
  | Some b => minutesBetween (createdAt x) b
  | None => 0
  end.

Definition handleMinutes (x : Ticket) : Z :=
  match startedAt x, doneAt x with
  | Some b, Some d => minutesBetween b d
  | _, _ => 0
  end.

(** Milliseconds a ticket waited. *)
Definition waitMillis (x : Ticket) : Z :=
  match startedAt x with
  | Some b => b - createdAt x
  | None => 0
  end.

(** Section 6 read with exact durations: the average, in minutes, of
    durations given in milliseconds, rounded to the nearest integer. *)
Definition exactAvgMinutes (millis : list Z) : Z :=
  Math_round
    (inject_Z (sumZ millis) / inject_Z 60000 /
     inject_Z (Z.of_nat (length millis)))%Q.

(** A string that neither starts nor ends with white space. *)
Definition no_outer_space (x : jsstring) : Prop :=
  match x with
  | [] => True
  | c :: _ => isWhiteSpace c = false /\ isWhiteSpace (last x c) = false
  end.

(** [y] is [x] without some white space at both ends. *)
Definition stripped_of (x y : jsstring) : Prop :=
  exists pre post,
    x = pre ++ y ++ post /\
    forallb isWhiteSpace pre = true /\ forallb isWhiteSpace post = true.

(** The lifecycle of one ticket (section 4.2): the changes an operation
    can make to a record. *)
Inductive transition : Op -> Ticket -> Ticket -> Prop :=
| tr_call (now : Z) (t : Ticket) :
    status t = waiting -> transition (CallNext now) t (started now t)
| tr_done (draft : jsstring) (now : Z) (t : Ticket) :
    status t = in_progress ->
    transition (Complete draft now) t (completed (trim draft) now t)
| tr_skip (t : Ticket) :
    status t = in_progress -> transition Skip t (passed t)
| tr_bump (t : Ticket) :
    transition (Bump (id t)) t (withPriority (nextPriority (priority t)) t).

(** The ticket was started, or completed, on the local day of [t]. *)
Definition started_on (tz : LocalTime) (t : Z) (x : Ticket) : Prop :=
  exists b, startedAt x = Some b /\ isSameLocalDay tz b t = true.

Definition completed_on (tz : LocalTime) (t : Z) (x : Ticket) : Prop :=
  exists d, doneAt x = Some d /\ isSameLocalDay tz d t = true.

(** The record an accepted form adds to the store. *)
Definition issued (form : ApplyForm) (uuid : jsstring) (now : Z)
    (s : list Ticket) : Ticket :=
  {| id := uuid; number := nextNumber s;
     name := trim (applyName form); desc := trim (applyDesc form);
     priority := applyPriority form;
     etaMinutes := normalizeEta (applyEta form);
     status := waiting; createdAt := now;
     startedAt := None; doneAt := None; result := None |}.

(** Two instants on the same calendar day in local time: same year, same
    month, same day of the month. *)
Definition same_calendar_day (tz : LocalTime) (a b : Z) : Prop :=
  getFullYear tz a = getFullYear tz b /\
  getMonth tz a = getMonth tz b /\
  getDate tz a = getDate tz b.

Definition completed_that_day (tz : LocalTime) (t : Z) (x : Ticket) : Prop :=
  exists d, doneAt x = Some d /\ same_calendar_day tz d t.

Definition started_that_day (tz : LocalTime) (t : Z) (x : Ticket) : Prop :=
  exists b, startedAt x = Some b /\ same_calendar_day tz b t.

(** [l] lists, once each and in any order, the tickets of [s] that
    satisfy [P]. *)
Definition enumerates (P : Ticket -> Prop) (s l : list Ticket) : Prop :=
  NoDup l /\ forall x, In x l <-> In x s /\ P x.

(** ** Sample data

    Concrete tickets, forms and runs at which the statements below are
    evaluated. *)

Definition sampleTicket (i : String.string) (p : Priority) (c : Z) : Ticket :=
  {| id := lit i; number := lit i;
     name := lit "n"%string; desc := lit "d"%string;
     priority := p; etaMinutes := 15; status := waiting; createdAt := c;
     startedAt := None; doneAt := None; result := None |}.

Definition ticketA : Ticket := sampleTicket "A"%string medium 1.
Definition ticketB : Ticket := sampleTicket "B"%string high 2.
Definition ticketC : Ticket := sampleTicket "C"%string high 0.

(** The applicant of section 8: name U+5C0F U+738B, description
    U+6D4B U+8BD5, surrounded by blanks that [trim] removes. *)
Definition sampleForm : ApplyForm :=
  {| applyName := [32; 23567; 29579; 32]%N;
     applyDesc := [27979; 35797]%N;
     applyPriority := medium;
     applyEta := Finite (15 # 1) |}.

Definition uuid1 : jsstring := lit "uuid-1"%string.
Definition uuid2 : jsstring := lit "uuid-2"%string.
Definition uuid3 : jsstring := lit "uuid-3"%string.

(** Two tickets taken ... *)
Definition sampleTaken : list Op :=
  [Create sampleForm uuid1 1000; Create sampleForm uuid2 2000].

(** ... the first one called ... *)
Definition sampleCalled : list Op := sampleTaken ++ [CallNext 3000].

(** ... and completed with the note " ok ". *)
Definition sampleCompleted : list Op :=
  sampleCalled ++ [Complete (lit " ok "%string) 4000].

(** A ticket taken, the store reset, another ticket taken. *)
Definition sampleReuse : list Op :=
  [Create sampleForm uuid1 1000; Reset true; Create sampleForm uuid2 2000].

(** Local time of a browser in UTC, for timestamps in January 1970. *)
Definition utc1970 : LocalTime :=
  {| getFullYear := fun _ => 1970;
     getMonth := fun _ => 0;
     getDate := fun ts => 1 + ts / 86400000 |}.

(** Three tickets that waited 36 s, 36 s and 0 s before being called. *)
Definition sampleStats : list Op :=
  [Create sampleForm uuid1 0; Create sampleForm uuid2 10000;
   CallNext 36000; Complete [] 40000;
   CallNext 46000; Complete [] 50000;
   Create sampleForm uuid3 60000; CallNext 60000].

(** * Properties *)

(** ** Equality tests *)

Lemma str_eqb_eq (a b : jsstring) : str_eqb a b = true <-> a = b.
Proof.
  revert b; induction a as [|x a IH]; intros [|y b]; simpl; split;
    try congruence; try reflexivity.
  - rewrite andb_true_iff, N.eqb_eq, IH. intros [-> ->]. reflexivity.
  - intros H; injection H as -> ->. rewrite N.eqb_refl. simpl.
    apply IH. reflexivity.
Qed.

Lemma str_eqb_refl (a : jsstring) : str_eqb a a = true.
Proof. apply str_eqb_eq. reflexivity. Qed.

Lemma Status_eqb_eq (a b : Status) : Status_eqb a b = true <-> a = b.
Proof. destruct a, b; simpl; split; congruence. Qed.

Lemma str_truthy_false (s : jsstring) : str_truthy s = false <-> s = [].
Proof. destruct s; simpl; split; congruence. Qed.

(** ** Updating the ticket with a given id *)

Section UpdateById.
Variable i : jsstring.
Variable f : Ticket -> Ticket.

Lemma map_upd_absent (s : list Ticket) :
  ~ In i (map id s) ->
  map (fun t => if str_eqb (id t) i then f t else t) s = s.
Proof.
  induction s as [|t s IH]; simpl; intros H; [reflexivity|].
  destruct (str_eqb (id t) i) eqn:E.
  - apply str_eqb_eq in E. tauto.
  - f_equal. apply IH. tauto.
Qed.

Lemma map_upd_unique (l1 l2 : list Ticket) (c : Ticket) :
  ids_unique (l1 ++ c :: l2) -> id c = i ->
  map (fun t => if str_eqb (id t) i then f t else t) (l1 ++ c :: l2) =
  l1 ++ f c :: l2.
Proof.
  unfold ids_unique. intros ND Hc.
  rewrite map_app in ND. simpl in ND.
  apply NoDup_remove_2 in ND. rewrite in_app_iff in ND.
  rewrite map_app. simpl.
  rewrite Hc, str_eqb_refl.
  rewrite !map_upd_absent; [reflexivity | |]; rewrite <- Hc; tauto.
Qed.
End UpdateById.

(** ** The sort *)

Section SortFacts.
Context {A : Type} (cmp : A -> A -> Z).

Lemma sort_insert_perm (x : A) (l : list A) :
  Permutation (sort_insert cmp x l) (x :: l).
Proof.
  induction l as [|y l IH]; simpl; [reflexivity|].
  destruct (cmp x y <=? 0); [reflexivity|].
  rewrite IH. apply perm_swap.
Qed.

Lemma Array_sort_perm (l : list A) : Permutation (Array_sort cmp l) l.
Proof.
  induction l as [|x l IH]; simpl; [reflexivity|].
  rewrite sort_insert_perm. constructor. exact IH.
Qed.

Variable le : A -> A -> Prop.
Hypothesis le_trans : forall x y z, le x y -> le y z -> le x z.
Hypothesis cmp_le : forall x y, cmp x y <= 0 -> le x y.
Hypothesis cmp_gt : forall x y, 0 < cmp x y -> le y x.

Lemma sort_insert_sorted (x : A) (l : list A) :
  StronglySorted le l -> StronglySorted le (sort_insert cmp x l).
Proof.
  induction 1 as [|y l Hs IH Hy]; simpl.
  - repeat constructor.
  - destruct (Z.leb_spec (cmp x y) 0) as [Hc|Hc].
    + constructor; [constructor; assumption|].
      constructor; [apply cmp_le; assumption|].
      eapply Forall_impl; [|exact Hy].
      intros z Hz. eapply le_trans; [apply cmp_le; eassumption|exact Hz].
    + constructor; [exact IH|].
      eapply Permutation_Forall.
      * symmetry. apply sort_insert_perm.
      * constructor; [apply cmp_gt; assumption|exact Hy].
Qed.

Lemma Array_sort_sorted (l : list A) : StronglySorted le (Array_sort cmp l).
Proof.
  induction l as [|x l IH]; simpl; [constructor|].
  apply sort_insert_sorted. exact IH.
Qed.

(** Stability: a class [p] of elements none of which compares greater
    than another member's smaller elements keeps its order. *)
Variable p : A -> bool.
Hypothesis p_block : forall x y, p x = true -> p y = true -> cmp x y <= 0.

Lemma sort_insert_filter (x : A) (l : list A) :
  filter p (sort_insert cmp x l) = filter p (x :: l).
Proof.
  induction l as [|y l IH]; simpl; [reflexivity|].
  destruct (Z.leb_spec (cmp x y) 0) as [Hc|Hc]; [reflexivity|].
  simpl. rewrite IH. simpl.
  destruct (p x) eqn:Hx, (p y) eqn:Hy; try reflexivity.
  specialize (p_block x y Hx Hy). lia.
Qed.

Lemma Array_sort_filter (l : list A) :
  filter p (Array_sort cmp l) = filter p l.
Proof.
  induction l as [|x l IH]; simpl; [reflexivity|].
  rewrite sort_insert_filter. simpl. rewrite IH. reflexivity.
Qed.
End SortFacts.

(** ** The waiting-queue order *)

Lemma priorityRank_range (p : Priority) : 1 <= priorityRank p <= 3.
Proof. destruct p; cbv; intuition congruence. Qed.

Lemma before_trans (x y z : Ticket) : before x y -> before y z -> before x z.
Proof. unfold before. lia. Qed.

Lemma queueCompare_le (x y : Ticket) : queueCompare x y <= 0 -> before x y.
Proof.
  unfold queueCompare, before.
  destruct (Z.eqb_spec
              (priorityRank (priority y) - priorityRank (priority x)) 0);
    simpl; lia.
Qed.

Lemma queueCompare_gt (x y : Ticket) : 0 < queueCompare x y -> before y x.
Proof.
  unfold queueCompare, before.
  destruct (Z.eqb_spec
              (priorityRank (priority y) - priorityRank (priority x)) 0);
    simpl; lia.
Qed.

Lemma sameKey_block (k x y : Ticket) :
  sameKey k x = true -> sameKey k y = true -> queueCompare x y <= 0.
Proof.
  unfold sameKey, queueCompare. rewrite !andb_true_iff, !Z.eqb_eq.
  intros [H1 H2] [H3 H4].
  destruct (Z.eqb_spec
              (priorityRank (priority y) - priorityRank (priority x)) 0);
    simpl; lia.
Qed.

Lemma sameKey_refl (x : Ticket) : sameKey x x = true.
Proof. unfold sameKey. rewrite !Z.eqb_refl. reflexivity. Qed.

Lemma before_antisym (x y : Ticket) :
  before x y -> before y x -> sameKey x y = true.
Proof.
  unfold before, sameKey. intros H1 H2.
  rewrite andb_true_iff, !Z.eqb_eq. lia.
Qed.

Lemma sortWaitingQueue_perm (s : list Ticket) :
  Permutation (sortWaitingQueue s) (filter is_waiting s).
Proof. apply Array_sort_perm. Qed.

Lemma sortWaitingQueue_In (s : list Ticket) (t : Ticket) :
  In t (sortWaitingQueue s) <-> In t s /\ status t = waiting.
Proof.
  rewrite <- Status_eqb_eq, <- (filter_In is_waiting).
  split; apply Permutation_in;
    [|symmetry]; apply sortWaitingQueue_perm.
Qed.

Lemma sortWaitingQueue_sorted (s : list Ticket) :
  StronglySorted before (sortWaitingQueue s).
Proof.
  apply Array_sort_sorted.
  - exact before_trans.
  - exact queueCompare_le.
  - exact queueCompare_gt.
Qed.

Lemma sortWaitingQueue_stable (s : list Ticket) (k : Ticket) :
  filter (sameKey k) (sortWaitingQueue s) =
  filter (sameKey k) (filter is_waiting s).
Proof. apply Array_sort_filter. apply sameKey_block. Qed.

(** A sorted list is determined by its blocks of equal keys. *)
Lemma sorted_blocks_unique (l1 l2 : list Ticket) :
  StronglySorted before l1 -> StronglySorted before l2 ->
  (forall k, filter (sameKey k) l1 = filter (sameKey k) l2) ->
  l1 = l2.
Proof.
  revert l2. induction l1 as [|x l1 IH]; intros [|y l2] S1 S2 HB.
  - reflexivity.
  - specialize (HB y). simpl in HB. rewrite sameKey_refl in HB. discriminate.
  - specialize (HB x). simpl in HB. rewrite sameKey_refl in HB. discriminate.
  - apply StronglySorted_inv in S1 as [S1 F1].
    apply StronglySorted_inv in S2 as [S2 F2].
    rewrite Forall_forall in F1, F2.
    assert (Kxy : sameKey x y = true).
    { assert (Hx : In x (y :: l2)).
      { apply (filter_In (sameKey x)). rewrite <- HB. simpl.
        rewrite sameKey_refl. left. reflexivity. }
      assert (Hy : In y (x :: l1)).
      { apply (filter_In (sameKey y)). rewrite HB. simpl.
        rewrite sameKey_refl. left. reflexivity. }
      destruct Hx as [<-|Hx]; [apply sameKey_refl|].
      destruct Hy as [<-|Hy]; [apply sameKey_refl|].
      apply before_antisym; auto. }
    assert (x = y).
    { specialize (HB x). simpl in HB. rewrite sameKey_refl, Kxy in HB.
      congruence. }
    subst y. f_equal. apply IH; auto.
    intros k. specialize (HB k). simpl in HB.
    destruct (sameKey k x); congruence.
Qed.

(** C2.  The waiting-queue projection is the waiting tickets sorted by
    priority rank descending (high=3, medium=2, low=1) and, within a rank,
    by [createdAt] ascending: it is a permutation of the waiting tickets,
    it is sorted for [before], tickets with equal rank and creation time
    keep their store order, and it is the only list with these properties.
    For A(medium, 1), B(high, 2), C(high, 0) the projection is [C; B; A]. *)
Theorem C2_waiting_queue_order (s : list Ticket) (A B C : Ticket)
  (HA : status A = waiting /\ priority A = medium /\ createdAt A = 1)
  (HB : status B = waiting /\ priority B = high /\ createdAt B = 2)
  (HC : status C = waiting /\ priority C = high /\ createdAt C = 0) :
  (priorityRank high = 3 /\ priorityRank medium = 2 /\ priorityRank low = 1) /\
  Permutation (sortWaitingQueue s) (filter is_waiting s) /\
  StronglySorted before (sortWaitingQueue s) /\
  (forall k, filter (sameKey k) (sortWaitingQueue s) =
             filter (sameKey k) (filter is_waiting s)) /\
  (forall q, StronglySorted before q ->
             (forall k, filter (sameKey k) q =
                        filter (sameKey k) (filter is_waiting s)) ->
             q = sortWaitingQueue s) /\
  sortWaitingQueue [A; B; C] = [C; B; A].
Proof.
  split; [repeat split|].
  split; [apply sortWaitingQueue_perm|].
  split; [apply sortWaitingQueue_sorted|].
  split; [apply sortWaitingQueue_stable|].
  split.
  - intros q Hq Hk. apply sorted_blocks_unique.
    + exact Hq.
    + apply sortWaitingQueue_sorted.
    + intros k. rewrite Hk, sortWaitingQueue_stable. reflexivity.
  - destruct HA as (sA & pA & cA), HB as (sB & pB & cB), HC as (sC & pC & cC).
    destruct A, B, C; simpl in *; subst. reflexivity.
Qed.

(** The order of the three tickets of section 8. *)
Lemma C2_waiting_queue_order_witness :
  sortWaitingQueue [ticketA; ticketB; ticketC] = [ticketC; ticketB; ticketA] /\
  StronglySorted before (sortWaitingQueue [ticketB; ticketA; ticketC]).
Proof.
  destruct (C2_waiting_queue_order [ticketB; ticketA; ticketC]
              ticketA ticketB ticketC) as (_ & _ & H2 & _ & _ & H5).
  - repeat split.
  - repeat split.
  - repeat split.
  - split; [exact H5 | exact H2].
Defined.

(** ** Frame lemmas: what each operation does to the array *)

Lemma inProgress_Some (s : list Ticket) (c : Ticket) :
  inProgress s = Some c -> In c s /\ status c = in_progress.
Proof.
  intros H. apply find_some in H. rewrite Status_eqb_eq in H. exact H.
Qed.

Lemma inProgress_None (s : list Ticket) :
  inProgress s = None -> filter is_in_progress s = [].
Proof.
  intros H. induction s as [|t s IH]; [reflexivity|].
  unfold inProgress in H. simpl in *. unfold is_in_progress at 1.
  destruct (Status_eqb (status t) in_progress); [discriminate|].
  apply IH. exact H.
Qed.

Lemma callNext_noop (now : Z) (s : list Ticket) :
  inProgress s <> None \/ waitingQueue s = [] -> callNext now s = s.
Proof.
  unfold callNext. intros [H|H].
  - destruct (inProgress s); congruence.
  - rewrite H. destruct (inProgress s); reflexivity.
Qed.

Lemma callNext_frame (now : Z) (s : list Ticket) (next : Ticket)
    (rest : list Ticket) :
  ids_unique s -> inProgress s = None -> waitingQueue s = next :: rest ->
  one_record_changed next (started now next) s (callNext now s).
Proof.
  intros U Hp Hq.
  assert (Hin : In next s).
  { apply (sortWaitingQueue_In s next). unfold waitingQueue in Hq.
    rewrite Hq. left. reflexivity. }
  destruct (in_split _ _ Hin) as (l1 & l2 & E).
  exists l1, l2. split; [exact E|].
  unfold callNext. rewrite Hp, Hq. rewrite E in U |- *.
  apply (map_upd_unique (id next) (started now)); [exact U|reflexivity].
Qed.

Lemma markDone_noop (draft : jsstring) (now : Z) (s : list Ticket) :
  inProgress s = None -> markDone draft now s = s.
Proof. unfold markDone. intros ->. reflexivity. Qed.

Lemma markDone_frame (draft : jsstring) (now : Z) (s : list Ticket)
    (cur : Ticket) :
  ids_unique s -> inProgress s = Some cur ->
  one_record_changed cur (completed (trim draft) now cur)
    s (markDone draft now s).
Proof.
  intros U Hp. destruct (inProgress_Some _ _ Hp) as [Hin _].
  destruct (in_split _ _ Hin) as (l1 & l2 & E).
  exists l1, l2. split; [exact E|].
  unfold markDone. rewrite Hp. rewrite E in U |- *.
  apply (map_upd_unique (id cur) (completed (trim draft) now));
    [exact U|reflexivity].
Qed.

Lemma markSkipped_noop (s : list Ticket) :
  inProgress s = None -> markSkipped s = s.
Proof. unfold markSkipped. intros ->. reflexivity. Qed.

Lemma markSkipped_frame (s : list Ticket) (cur : Ticket) :
  ids_unique s -> inProgress s = Some cur ->
  one_record_changed cur (passed cur) s (markSkipped s).
Proof.
  intros U Hp. destruct (inProgress_Some _ _ Hp) as [Hin _].
  destruct (in_split _ _ Hin) as (l1 & l2 & E).
  exists l1, l2. split; [exact E|].
  unfold markSkipped. rewrite Hp. rewrite E in U |- *.
  apply (map_upd_unique (id cur) passed); [exact U|reflexivity].
Qed.

Lemma bumpPriority_eq (i : jsstring) (s : list Ticket) :
  bumpPriority i s =
  map (fun t => if str_eqb (id t) i
                then withPriority (nextPriority (priority t)) t else t) s.
Proof.
  unfold bumpPriority. apply map_ext. intros t.
  destruct (str_eqb (id t) i); [|reflexivity].
  simpl. unfold withPriority. destruct (priority t); reflexivity.
Qed.

Lemma bumpPriority_frame (i : jsstring) (s : list Ticket) :
  ids_unique s ->
  bumpPriority i s = s \/
  exists l1 t l2, s = l1 ++ t :: l2 /\ id t = i /\
    bumpPriority i s = l1 ++ withPriority (nextPriority (priority t)) t :: l2.
Proof.
  intros U. rewrite bumpPriority_eq.
  destruct (in_dec (list_eq_dec N.eq_dec) i (map id s)) as [Hin|Hout].
  - right. apply in_map_iff in Hin as (t & Ht & Hin).
    destruct (in_split _ _ Hin) as (l1 & l2 & E).
    exists l1, t, l2. split; [exact E|]. split; [exact Ht|].
    rewrite E in U |- *.
    apply (map_upd_unique i
             (fun t => withPriority (nextPriority (priority t)) t));
      assumption.
  - left. apply (map_upd_absent i); exact Hout.
Qed.

(** Every operation but create and reset returns the array as it is or
    makes one lifecycle transition at one place. *)
Lemma step_transition (o : Op) (s : list Ticket) :
  ids_unique s -> is_create o = false -> is_reset o = false ->
  step o s = s \/
  exists t t', transition o t t' /\ one_record_changed t t' s (step o s).
Proof.
  intros U Ec Er.
  destruct o as [f u n|n|d n| |i|ok]; simpl; try discriminate.
  - destruct (inProgress s) as [c|] eqn:Hp.
    { left. apply callNext_noop. left. congruence. }
    destruct (waitingQueue s) as [|next rest] eqn:Hq.
    { left. apply callNext_noop. right. exact Hq. }
    right. exists next, (started n next). split.
    + constructor. apply (sortWaitingQueue_In s next).
      unfold waitingQueue in Hq. rewrite Hq. left. reflexivity.
    + apply (callNext_frame n s next rest U Hp Hq).
  - destruct (inProgress s) as [c|] eqn:Hp.
    2:{ left. apply markDone_noop. exact Hp. }
    right. exists c, (completed (trim d) n c). split.
    + constructor. apply (inProgress_Some s c Hp).
    + apply (markDone_frame d n s c U Hp).
  - destruct (inProgress s) as [c|] eqn:Hp.
    2:{ left. apply markSkipped_noop. exact Hp. }
    right. exists c, (passed c). split.
    + constructor. apply (inProgress_Some s c Hp).
    + apply (markSkipped_frame s c U Hp).
  - destruct (bumpPriority_frame i s U) as [E|(l1 & t & l2 & E1 & <- & E3)];
      [left; exact E|right].
    exists t, (withPriority (nextPriority (priority t)) t).
    split; [constructor|]. exists l1, l2. split; assumption.
Qed.

Lemma step_map (o : Op) (s : list Ticket) :
  is_create o = false -> is_reset o = false ->
  exists g, step o s = map g s /\ keeps_identity g.
Proof.
  assert (Hid : keeps_identity (fun t => t)) by (intros t; tauto).
  destruct o as [f u n|n|d n| |i|ok]; simpl; try discriminate; intros _ _.
  - unfold callNext. destruct (inProgress s).
    { exists (fun t => t). rewrite map_id. auto. }
    destruct (waitingQueue s) as [|next rest].
    { exists (fun t => t). rewrite map_id. auto. }
    eexists. split; [reflexivity|].
    intros t. destruct (str_eqb (id t) (id next)); simpl; tauto.
  - unfold markDone. destruct (inProgress s) as [cur|].
    2:{ exists (fun t => t). rewrite map_id. auto. }
    eexists. split; [reflexivity|].
    intros t. destruct (str_eqb (id t) (id cur)); simpl; tauto.
  - unfold markSkipped. destruct (inProgress s) as [cur|].
    2:{ exists (fun t => t). rewrite map_id. auto. }
    eexists. split; [reflexivity|].
    intros t. destruct (str_eqb (id t) (id cur)); simpl; tauto.
  - eexists. split; [reflexivity|].
    intros t. destruct (str_eqb (id t) i); simpl; tauto.
Qed.

Lemma createTicket_cases (form : ApplyForm) (uuid : jsstring) (now : Z)
    (s : list Ticket) :
  (trim (applyName form) = [] \/ trim (applyDesc form) = []) /\
  createTicket form uuid now s = s
  \/
  trim (applyName form) <> [] /\ trim (applyDesc form) <> [] /\
  createTicket form uuid now s =
    s ++ [ {| id := uuid; number := nextNumber s;
              name := trim (applyName form); desc := trim (applyDesc form);
              priority := applyPriority form;
              etaMinutes := normalizeEta (applyEta form);
              status := waiting; createdAt := now;
              startedAt := None; doneAt := None; result := None |} ].
Proof.
  unfold createTicket.
  destruct (trim (applyName form)) as [|a x]; simpl; [left; auto|].
  destruct (trim (applyDesc form)) as [|b y]; simpl; [left; auto|].
  right. repeat split; congruence.
Qed.

(** ** Invariants of reachable stores *)

Lemma reachable_run (ops : list Op) (s : list Ticket) :
  reachable s -> fresh_run ops s = true -> reachable (run ops s).
Proof.
  revert s. induction ops as [|o ops IH]; simpl; intros s R F; [exact R|].
  apply andb_true_iff in F as [F1 F2].
  apply IH; [apply reach_step; assumption|exact F2].
Qed.

Lemma map_keeps (g : Ticket -> Ticket) (s : list Ticket) :
  keeps_identity g ->
  map id (map g s) = map id s /\
  map number (map g s) = map number s /\
  map etaMinutes (map g s) = map etaMinutes s.
Proof.
  intros K. rewrite !map_map.
  repeat split; apply map_ext; intros t; apply K.
Qed.

Lemma uuid_fresh_create (form : ApplyForm) (uuid : jsstring) (now : Z)
    (s : list Ticket) :
  uuid_fresh (Create form uuid now) s = true -> ~ In uuid (map id s).
Proof.
  simpl. rewrite negb_true_iff. intros H Hin.
  apply in_map_iff in Hin as (t & Ht & Hin).
  assert (existsb (fun t => str_eqb (id t) uuid) s = true); [|congruence].
  apply existsb_exists. exists t. split; [exact Hin|].
  apply str_eqb_eq. exact Ht.
Qed.

Lemma step_ids_unique (o : Op) (s : list Ticket) :
  ids_unique s -> uuid_fresh o s = true -> ids_unique (step o s).
Proof.
  unfold ids_unique. intros U F.
  destruct (is_create o) eqn:Ec; [|destruct (is_reset o) eqn:Er].
  - destruct o as [f u n| | | | |]; try discriminate. simpl.
    destruct (createTicket_cases f u n s) as [[_ ->]|(_ & _ & ->)];
      [exact U|].
    rewrite map_app. simpl.
    eapply Permutation_NoDup; [apply Permutation_cons_append|].
    constructor; [|exact U].
    eapply uuid_fresh_create. exact F.
  - destruct o as [| | | | |ok]; try discriminate. simpl.
    destruct ok; simpl; [constructor|exact U].
  - destruct (step_map o s Ec Er) as (g & -> & K).
    destruct (map_keeps g s K) as (-> & _). exact U.
Qed.

Lemma reachable_ids_unique (s : list Ticket) : reachable s -> ids_unique s.
Proof.
  induction 1 as [|o s R IH F]; [constructor|].
  apply step_ids_unique; assumption.
Qed.

Lemma count_map_le (g : Ticket -> Ticket) (s : list Ticket) :
  (forall t, is_in_progress (g t) = true -> is_in_progress t = true) ->
  (length (filter is_in_progress (map g s)) <=
   length (filter is_in_progress s))%nat.
Proof.
  intros H. induction s as [|t s IH]; simpl; [lia|].
  destruct (is_in_progress (g t)) eqn:E.
  - rewrite (H t E). simpl. lia.
  - destruct (is_in_progress t); simpl; lia.
Qed.

Lemma step_one_in_progress (o : Op) (s : list Ticket) :
  ids_unique s ->
  (length (filter is_in_progress s) <= 1)%nat ->
  (length (filter is_in_progress (step o s)) <= 1)%nat.
Proof.
  intros U C. destruct o as [f u n|n|d n| |i|ok]; simpl.
  - destruct (createTicket_cases f u n s) as [[_ ->]|(_ & _ & ->)];
      [exact C|].
    rewrite filter_app, length_app. simpl. lia.
  - destruct (inProgress s) as [c|] eqn:Hp.
    { rewrite callNext_noop; [exact C|left; congruence]. }
    destruct (waitingQueue s) as [|next rest] eqn:Hq.
    { rewrite callNext_noop; [exact C|right; exact Hq]. }
    destruct (callNext_frame n s next rest U Hp Hq) as (l1 & l2 & E & ->).
    apply inProgress_None in Hp. rewrite E in Hp.
    rewrite filter_app in Hp. apply app_eq_nil in Hp as [H1 H2].
    simpl in H2. destruct (is_in_progress next); [discriminate|].
    rewrite filter_app. simpl. rewrite H1, H2. simpl. lia.
  - etransitivity; [|exact C]. unfold markDone.
    destruct (inProgress s) as [c|]; [|lia].
    apply count_map_le. intros t.
    destruct (str_eqb (id t) (id c)); [discriminate|tauto].
  - etransitivity; [|exact C]. unfold markSkipped.
    destruct (inProgress s) as [c|]; [|lia].
    apply count_map_le. intros t.
    destruct (str_eqb (id t) (id c)); [discriminate|tauto].
  - etransitivity; [|exact C]. unfold bumpPriority.
    apply count_map_le. intros t.
    destruct (str_eqb (id t) i); simpl; tauto.
  - destruct ok; simpl; [lia|exact C].
Qed.

Lemma reachable_one_in_progress (s : list Ticket) :
  reachable s -> (length (filter is_in_progress s) <= 1)%nat.
Proof.
  induction 1 as [|o s R IH F]; [simpl; lia|].
  apply step_one_in_progress; [apply reachable_ids_unique|]; assumption.
Qed.

Lemma unique_found {A : Type} (p : A -> bool) (s : list A) (t : A) :
  (length (filter p s) <= 1)%nat -> In t s -> p t = true ->
  find p s = Some t.
Proof.
  induction s as [|x s IH]; simpl; intros C Hin Hp; [contradiction|].
  destruct (p x) eqn:Ex.
  - destruct Hin as [->|Hin]; [reflexivity|].
    simpl in C. assert (Hf : In t (filter p s)) by (apply filter_In; auto).
    destruct (filter p s); [contradiction|simpl in C; lia].
  - destruct Hin as [->|Hin]; [congruence|]. apply IH; assumption.
Qed.

(** C1.  In every store reachable from the empty store by create,
    call-next, complete, skip, bump-priority and reset, at most one ticket
    has status in_progress; when there is one, it is the ticket the
    in-progress lookup returns. *)
Theorem C1_at_most_one_in_progress (s : list Ticket) :
  reachable s ->
  (length (filter is_in_progress s) <= 1)%nat /\
  (forall t, In t s -> status t = in_progress -> inProgress s = Some t).
Proof.
  intros R. pose proof (reachable_one_in_progress s R) as C.
  split; [exact C|].
  intros t Hin Hs. apply unique_found; [exact C|exact Hin|].
  apply Status_eqb_eq. exact Hs.
Qed.

(** The invariant at the store with two tickets taken and one called. *)
Lemma C1_at_most_one_in_progress_witness :
  reachable (run sampleCalled []) /\
  (length (filter is_in_progress (run sampleCalled [])) <= 1)%nat.
Proof.
  assert (R : reachable (run sampleCalled [])).
  { apply reachable_run; [constructor|reflexivity]. }
  split; [exact R|].
  apply (C1_at_most_one_in_progress (run sampleCalled []) R).
Defined.

(** C3.  In a store with pairwise distinct ids, call-next with no
    in_progress ticket and a non-empty waiting queue replaces exactly the
    head of the waiting queue, in place, by the same record with status
    in_progress and startedAt = now; when an in_progress ticket exists or
    the waiting queue is empty the store is returned unchanged. *)
Theorem C3_call_next (now : Z) (s : list Ticket) :
  ids_unique s ->
  (forall next rest,
     inProgress s = None -> waitingQueue s = next :: rest ->
     status next = waiting /\
     status (started now next) = in_progress /\
     startedAt (started now next) = Some now /\
     one_record_changed next (started now next) s (callNext now s)) /\
  (inProgress s <> None \/ waitingQueue s = [] -> callNext now s = s).
Proof.
  intros U. split.
  - intros next rest Hp Hq.
    split.
    { apply (sortWaitingQueue_In s next). unfold waitingQueue in Hq.
      rewrite Hq. left. reflexivity. }
    split; [reflexivity|]. split; [reflexivity|].
    destruct (callNext_frame now s next rest U Hp Hq) as (l1 & l2 & E1 & E2).
    exists l1, l2. split; assumption.
  - apply callNext_noop.
Qed.

Lemma sample_ids_unique (ops : list Op) :
  fresh_run ops [] = true -> ids_unique (run ops []).
Proof.
  intros F. apply reachable_ids_unique, reachable_run; [constructor|exact F].
Qed.

(** Calling with two tickets waiting, and calling again while the first
    is in progress. *)
Lemma C3_call_next_witness :
  ids_unique (run sampleTaken []) /\
  (forall next rest,
     inProgress (run sampleTaken []) = None ->
     waitingQueue (run sampleTaken []) = next :: rest ->
     status next = waiting /\
     status (started 3000 next) = in_progress /\
     startedAt (started 3000 next) = Some 3000 /\
     one_record_changed next (started 3000 next)
       (run sampleTaken []) (callNext 3000 (run sampleTaken []))) /\
  callNext 5000 (run sampleCalled []) = run sampleCalled [].
Proof.
  assert (U1 : ids_unique (run sampleTaken []))
    by (apply sample_ids_unique; reflexivity).
  assert (U2 : ids_unique (run sampleCalled []))
    by (apply sample_ids_unique; reflexivity).
  split; [exact U1|]. split.
  - apply (C3_call_next 3000 (run sampleTaken []) U1).
  - apply (C3_call_next 5000 (run sampleCalled []) U2).
    left. vm_compute. discriminate.
Defined.

(** C9.  In a store with pairwise distinct ids, call-next, complete, skip
    and bump-priority each replace at most one record, in place, and leave
    every other record and the order of the array as they are: call-next
    the head of the waiting queue when nobody is in progress, complete and
    skip the ticket in progress, bump-priority the ticket with the given
    id; in every other case they return the array unchanged.  Create, for
    a form whose trimmed name and description are not empty, returns the
    array with one new waiting ticket appended at the end, all existing
    records unchanged; for any other form it returns the array
    unchanged. *)
Theorem C9_frame (o : Op) (s : list Ticket) :
  ids_unique s ->
  match o with
  | Create form uuid now =>
      (valid_form form -> step o s = s ++ [issued form uuid now s]) /\
      (~ valid_form form -> step o s = s)
  | CallNext now =>
      (forall next rest,
         inProgress s = None -> waitingQueue s = next :: rest ->
         one_record_changed next (started now next) s (step o s)) /\
      (inProgress s <> None \/ waitingQueue s = [] -> step o s = s)
  | Complete draft now =>
      (forall cur,
         inProgress s = Some cur ->
         one_record_changed cur (completed (trim draft) now cur)
           s (step o s)) /\
      (inProgress s = None -> step o s = s)
  | Skip =>
      (forall cur,
         inProgress s = Some cur ->
         one_record_changed cur (passed cur) s (step o s)) /\
      (inProgress s = None -> step o s = s)
  | Bump i =>
      (forall t,
         In t s -> id t = i ->
         one_record_changed t (withPriority (nextPriority (priority t)) t)
           s (step o s)) /\
      (~ In i (map id s) -> step o s = s)
  | Reset _ => True
  end.
Proof.
  intros U. destruct o as [f u n|n|d n| |i|ok]; simpl.
  - split.
    + intros [Hn Hd].
      destruct (createTicket_cases f u n s) as [[[H|H] _]|(_ & _ & E)];
        [contradiction|contradiction|exact E].
    + intros NV.
      destruct (createTicket_cases f u n s) as [[_ E]|(Hn & Hd & _)];
        [exact E|].
      exfalso. apply NV. split; assumption.
  - split; [|apply callNext_noop].
    intros next rest Hp Hq. apply (callNext_frame n s next rest U Hp Hq).
  - split; [|apply markDone_noop].
    intros cur Hp. apply (markDone_frame d n s cur U Hp).
  - split; [|apply markSkipped_noop].
    intros cur Hp. apply (markSkipped_frame s cur U Hp).
  - rewrite bumpPriority_eq. split.
    + intros t Hin Ht. destruct (in_split _ _ Hin) as (l1 & l2 & E).
      exists l1, l2. split; [exact E|]. rewrite E in U |- *.
      apply (map_upd_unique i
               (fun t => withPriority (nextPriority (priority t)) t));
        assumption.
    + apply (map_upd_absent i).
  - exact I.
Qed.

(** With 001 in progress and 002 waiting: a third ticket is appended, and
    bumping 002 replaces that record only. *)
Lemma C9_frame_witness :
  ids_unique (run sampleCalled []) /\
  step (Create sampleForm uuid3 5000) (run sampleCalled []) =
    run sampleCalled [] ++ [issued sampleForm uuid3 5000 (run sampleCalled [])]
  /\
  (forall t, In t (run sampleCalled []) -> id t = uuid2 ->
     one_record_changed t (withPriority (nextPriority (priority t)) t)
       (run sampleCalled []) (step (Bump uuid2) (run sampleCalled []))).
Proof.
  assert (U : ids_unique (run sampleCalled []))
    by (apply sample_ids_unique; reflexivity).
  split; [exact U|]. split.
  - apply (C9_frame (Create sampleForm uuid3 5000) (run sampleCalled []) U).
    split; discriminate.
  - apply (C9_frame (Bump uuid2) (run sampleCalled []) U).
Defined.

(** ** Display numbers: [String], [padStart] and [parseInt] *)

Lemma isDigit_cases (c : N) :
  isDigit c = true ->
  (c = 48 \/ c = 49 \/ c = 50 \/ c = 51 \/ c = 52 \/
   c = 53 \/ c = 54 \/ c = 55 \/ c = 56 \/ c = 57)%N.
Proof.
  unfold isDigit. rewrite andb_true_iff, !N.leb_le. lia.
Qed.

Lemma digitPrefix_all (s : jsstring) :
  forallb isDigit s = true ->
  digitPrefix s = map (fun c => Z.of_N (c - 48)) s.
Proof.
  induction s as [|c s IH]; simpl; [reflexivity|].
  rewrite andb_true_iff. intros [-> H]. rewrite IH by exact H. reflexivity.
Qed.

Lemma parseInt_digits (c : N) (s : jsstring) :
  forallb isDigit (c :: s) = true ->
  parseInt (c :: s) =
  Some (digitsValue (map (fun c => Z.of_N (c - 48)) (c :: s))).
Proof.
  intros H. pose proof (digitPrefix_all _ H) as P.
  simpl in H. apply andb_true_iff in H as [Hc _].
  assert (E : parseInt (c :: s) =
              Some (1 * digitsValue (digitPrefix (c :: s)))).
  { apply isDigit_cases in Hc.
    repeat (destruct Hc as [->|Hc]; [reflexivity|]). subst c. reflexivity. }
  rewrite E, P. f_equal. lia.
Qed.

Lemma digitsValue_snoc (ds : list Z) (d : Z) :
  digitsValue (ds ++ [d]) = digitsValue ds * 10 + d.
Proof. unfold digitsValue. rewrite fold_left_app. reflexivity. Qed.

Lemma digitsValue_zeros (k : nat) (ds : list Z) :
  digitsValue (repeat 0 k ++ ds) = digitsValue ds.
Proof.
  unfold digitsValue. induction k as [|k IH]; simpl; [reflexivity|exact IH].
Qed.

Lemma N_div10 (n : N) :
  exists q r, (n / 10 = q /\ n mod 10 = r /\ n = 10 * q + r /\ r < 10)%N.
Proof.
  exists (n / 10)%N, (n mod 10)%N. repeat split.
  - apply N.div_mod. discriminate.
  - apply N.mod_upper_bound. discriminate.
Qed.

Lemma digitsFuel_digits (fuel : nat) (n : N) :
  forallb isDigit (digitsFuel fuel n) = true.
Proof.
  revert n. induction fuel as [|f IH]; intros n; cbn [digitsFuel];
    [reflexivity|].
  destruct (N.ltb_spec n 10) as [L|L].
  - cbn [forallb]. unfold isDigit.
    rewrite andb_true_r, andb_true_iff, !N.leb_le. lia.
  - destruct (N_div10 n) as (q & r & -> & -> & D & M).
    rewrite forallb_app, IH. cbn [forallb andb]. unfold isDigit.
    rewrite andb_true_r, andb_true_iff, !N.leb_le. lia.
Qed.

Lemma digitsFuel_nonempty (fuel : nat) (n : N) : digitsFuel (S fuel) n <> [].
Proof.
  cbn [digitsFuel]. destruct (n <? 10)%N; [discriminate|].
  intros H. apply app_eq_nil in H as [_ H]. discriminate.
Qed.

Lemma digitsFuel_value (fuel : nat) (n : N) :
  (N.to_nat n < fuel)%nat ->
  digitsValue (map (fun c => Z.of_N (c - 48)) (digitsFuel fuel n)) = Z.of_N n.
Proof.
  revert n. induction fuel as [|f IH]; intros n Hf; [lia|].
  cbn [digitsFuel].
  destruct (N.ltb_spec n 10) as [L|L].
  - cbn [map]. unfold digitsValue. cbn [fold_left]. lia.
  - destruct (N_div10 n) as (q & r & -> & -> & D & M).
    rewrite map_app. cbn [map]. rewrite digitsValue_snoc.
    rewrite IH by lia. lia.
Qed.

Lemma digitsFuel_length (fuel : nat) (n : N) :
  (n < 1000)%N -> (3 <= fuel)%nat -> (N.to_nat n < fuel)%nat ->
  (length (digitsFuel fuel n) <= 3)%nat.
Proof.
  intros B F1 F2.
  destruct fuel as [|[|[|f]]]; try lia. cbn [digitsFuel].
  destruct (N.ltb_spec n 10) as [L|L]; [cbn [length]; lia|].
  destruct (N_div10 n) as (q & r & -> & -> & D & M).
  destruct (N.ltb_spec q 10) as [L1|L1];
    [rewrite !length_app; cbn [length]; lia|].
  destruct (N_div10 q) as (q' & r' & -> & -> & D' & M').
  destruct (N.ltb_spec q' 10) as [L2|L2];
    [rewrite !length_app; cbn [length]; lia|].
  lia.
Qed.

Lemma pad3_digits (n : Z) : 0 <= n -> forallb isDigit (pad3 n) = true.
Proof.
  intros H. unfold pad3, padStart, String_.
  destruct (Z.ltb_spec n 0); [lia|].
  rewrite forallb_app. apply andb_true_iff. split.
  - induction (3 - length (digitsOfN (Z.to_N n)))%nat; [reflexivity|exact IHn0].
  - apply digitsFuel_digits.
Qed.

Lemma parseInt_pad3 (n : Z) : 0 <= n -> parseInt (pad3 n) = Some n.
Proof.
  intros H. pose proof (pad3_digits n H) as D.
  unfold pad3, padStart, String_ in *.
  destruct (Z.ltb_spec n 0); [lia|].
  set (k := (3 - length (digitsOfN (Z.to_N n)))%nat) in *.
  assert (V : digitsValue (map (fun c => Z.of_N (c - 48))
                (repeat 48%N k ++ digitsOfN (Z.to_N n))) = n).
  { rewrite map_app, map_repeat. change (Z.of_N (48 - 48)) with 0.
    rewrite digitsValue_zeros. unfold digitsOfN.
    rewrite digitsFuel_value by lia. lia. }
  destruct (repeat 48%N k ++ digitsOfN (Z.to_N n)) as [|c r] eqn:E.
  - apply app_eq_nil in E as [_ E]. apply digitsFuel_nonempty in E.
    contradiction.
  - rewrite parseInt_digits by exact D. rewrite V. reflexivity.
Qed.

Lemma pad3_length (n : Z) :
  (3 <= length (pad3 n))%nat /\
  (0 <= n < 1000 -> length (pad3 n) = 3%nat).
Proof.
  unfold pad3, padStart. rewrite length_app, repeat_length.
  split; [lia|]. intros B. unfold String_.
  destruct (Z.ltb_spec n 0); [lia|].
  destruct (N.lt_ge_cases (Z.to_N n) 3) as [Hs|Hs].
  - assert (C : Z.to_N n = 0%N \/ Z.to_N n = 1%N \/ Z.to_N n = 2%N) by lia.
    destruct C as [-> | [-> | ->]]; reflexivity.
  - pose proof (digitsFuel_length (S (N.to_nat (Z.to_N n))) (Z.to_N n)
                  ltac:(lia) ltac:(lia) ltac:(lia)) as L.
    unfold digitsOfN. lia.
Qed.

(** The running maximum computed by the [reduce] of [nextNumber]. *)
Lemma fold_max_ge (s : list Ticket) (acc : Z) :
  let F := fun a t => match parseInt (number t) with
                      | Some n => Z.max a n | None => a end in
  acc <= fold_left F s acc /\
  (forall t n, In t s -> parseInt (number t) = Some n ->
               n <= fold_left F s acc) /\
  (fold_left F s acc = acc \/
   exists t, In t s /\ parseInt (number t) = Some (fold_left F s acc)).
Proof.
  intros F. revert acc. induction s as [|x s IH]; intros acc; simpl.
  - split; [lia|]. split; [contradiction|left; reflexivity].
  - destruct (IH (F acc x)) as (G1 & G2 & G3).
    assert (A : acc <= F acc x).
    { unfold F. destruct (parseInt (number x)); lia. }
    split; [lia|]. split.
    + intros t n [->|Hin] Hn; [|eauto].
      assert (n <= F acc t); [unfold F; rewrite Hn; lia|lia].
    + destruct G3 as [G3|(t & Hin & Ht)]; [|right; eauto].
      rewrite G3.
      assert (E : F acc x = acc \/ parseInt (number x) = Some (F acc x)).
      { unfold F. destruct (parseInt (number x)) as [n|]; [|left; reflexivity].
        destruct (Z.max_spec acc n) as [[_ ->]|[_ ->]];
          [right|left]; reflexivity. }
      destruct E as [E|E]; [left; exact E|right].
      exists x. split; [left; reflexivity|exact E].
Qed.

Lemma maxNumber_nonneg (s : list Ticket) : 0 <= maxNumber s.
Proof. apply (fold_max_ge s 0). Qed.

Lemma maxNumber_ge (s : list Ticket) (t : Ticket) (n : Z) :
  In t s -> parseInt (number t) = Some n -> n <= maxNumber s.
Proof. apply (fold_max_ge s 0). Qed.

Lemma maxNumber_attained (s : list Ticket) :
  maxNumber s = 0 \/
  exists t, In t s /\ parseInt (number t) = Some (maxNumber s).
Proof. apply (fold_max_ge s 0). Qed.

Lemma numberValue_nextNumber (s : list Ticket) :
  parseInt (nextNumber s) = Some (maxNumber s + 1).
Proof.
  apply parseInt_pad3. pose proof (maxNumber_nonneg s). lia.
Qed.

Lemma StronglySorted_snoc {A : Type} (R : A -> A -> Prop) (l : list A) (a : A) :
  StronglySorted R l -> Forall (fun x => R x a) l ->
  StronglySorted R (l ++ [a]).
Proof.
  induction 1 as [|x l S IH F]; simpl; intros H.
  - repeat constructor.
  - apply Forall_cons_iff in H as [Hx H]. constructor; [apply IH; exact H|].
    apply Forall_app. split; [exact F|]. repeat constructor. exact Hx.
Qed.

Lemma sorted_lt_NoDup (l : list Z) : StronglySorted Z.lt l -> NoDup l.
Proof.
  induction 1 as [|x l S IH F]; constructor; [|exact IH].
  intros Hin. rewrite Forall_forall in F. specialize (F x Hin). lia.
Qed.

Lemma numberValue_keeps (g : Ticket -> Ticket) (t : Ticket) :
  keeps_identity g -> numberValue (g t) = numberValue t.
Proof.
  intros K. unfold numberValue.
  destruct (K t) as (_ & -> & _). reflexivity.
Qed.

Lemma step_numbers_ok (o : Op) (s : list Ticket) :
  numbers_ok s -> numbers_ok (step o s).
Proof.
  intros [S F].
  destruct (is_create o) eqn:Ec; [|destruct (is_reset o) eqn:Er].
  - destruct o as [f u n| | | | |]; try discriminate. simpl.
    destruct (createTicket_cases f u n s) as [[_ ->]|(_ & _ & ->)];
      [split; assumption|].
    assert (V : forall t, number t = nextNumber s ->
                          numberValue t = maxNumber s + 1).
    { intros t E. unfold numberValue.
      rewrite E, numberValue_nextNumber. reflexivity. }
    pose proof (maxNumber_nonneg s) as M.
    split.
    + rewrite map_app. apply StronglySorted_snoc; [exact S|].
      simpl. rewrite V by reflexivity.
      apply Forall_forall. intros v Hv.
      apply in_map_iff in Hv as (t & <- & Hin).
      rewrite Forall_forall in F. destruct (F t Hin) as [E B].
      assert (numberValue t <= maxNumber s); [|lia].
      apply (maxNumber_ge s t); [exact Hin|].
      rewrite E. apply parseInt_pad3. lia.
    + apply Forall_app. split; [exact F|].
      constructor; [|constructor]. simpl.
      rewrite V by reflexivity. split; [reflexivity|lia].
  - destruct o as [| | | | |ok]; try discriminate. simpl.
    destruct ok; simpl; [|split; assumption].
    split; constructor.
  - destruct (step_map o s Ec Er) as (g & -> & K). split.
    + rewrite map_map.
      rewrite (map_ext _ numberValue); [exact S|].
      intros t. apply numberValue_keeps. exact K.
    + apply Forall_map. eapply Forall_impl; [|exact F].
      intros t [E B]. simpl. rewrite numberValue_keeps by exact K.
      destruct (K t) as (_ & -> & _). split; assumption.
Qed.

Lemma run_numbers_ok (ops : list Op) (s : list Ticket) :
  numbers_ok s -> numbers_ok (run ops s).
Proof.
  revert s. induction ops as [|o ops IH]; simpl; intros s H; [exact H|].
  apply IH, step_numbers_ok, H.
Qed.

Lemma reachable_numbers_ok (s : list Ticket) : reachable s -> numbers_ok s.
Proof.
  induction 1 as [|o s R IH F]; [split; constructor|].
  apply step_numbers_ok. exact IH.
Qed.

Lemma numbers_ok_NoDup (s : list Ticket) :
  numbers_ok s -> NoDup (map number s).
Proof.
  intros [S _]. apply sorted_lt_NoDup in S.
  apply (NoDup_map_inv
           (fun n => match parseInt n with Some v => v | None => 0 end)).
  rewrite map_map. exact S.
Qed.

(** Without a confirmed reset nothing leaves the array: the tickets ever
    created are the tickets stored. *)
Lemma everCreated_numbers (ops : list Op) (s : list Ticket) :
  existsb confirmed_reset ops = false ->
  map number (run ops s) = map number s ++ map number (everCreated ops s) /\
  map numberValue (run ops s) =
    map numberValue s ++ map numberValue (everCreated ops s).
Proof.
  revert s. induction ops as [|o ops IH]; simpl; intros s H.
  - rewrite !app_nil_r. split; reflexivity.
  - apply orb_false_iff in H as [Ho H].
    destruct (IH (step o s) H) as [-> ->]. clear IH.
    rewrite !map_app, !app_assoc.
    destruct (is_create o) eqn:Ec; [|destruct (is_reset o) eqn:Er].
    + destruct o as [f u n| | | | |]; try discriminate. simpl.
      destruct (createTicket_cases f u n s) as [[_ ->]|(_ & _ & ->)].
      * rewrite skipn_all. simpl. rewrite !app_nil_r. split; reflexivity.
      * rewrite skipn_app, skipn_all, Nat.sub_diag. simpl.
        rewrite !map_app. split; reflexivity.
    + destruct o as [| | | | |[|]]; try discriminate. simpl.
      rewrite !app_nil_r. split; reflexivity.
    + assert (C : createdBy o s = [])
        by (destruct o; try discriminate; reflexivity).
      rewrite C. simpl. rewrite !app_nil_r.
      destruct (step_map o s Ec Er) as (g & -> & K).
      destruct (map_keeps g s K) as (_ & -> & _).
      rewrite map_map. rewrite (map_ext _ numberValue); [split; reflexivity|].
      intros t. apply numberValue_keeps. exact K.
Qed.

Lemma createTicket_accept (form : ApplyForm) (uuid : jsstring) (now : Z)
    (s : list Ticket) :
  valid_form form ->
  createTicket form uuid now s =
    s ++ [ {| id := uuid; number := nextNumber s;
              name := trim (applyName form); desc := trim (applyDesc form);
              priority := applyPriority form;
              etaMinutes := normalizeEta (applyEta form);
              status := waiting; createdAt := now;
              startedAt := None; doneAt := None; result := None |} ].
Proof.
  intros [Hn Hd].
  destruct (createTicket_cases form uuid now s) as [[[H|H] _]|(_ & _ & E)];
    [contradiction|contradiction|exact E].
Qed.

(** C4.  The next display number is the maximum of the numeric values of
    the stored numbers (0 for none) plus one, written in decimal and padded
    with zeros to at least three characters.  Hence, with forms whose name
    and description are not blank, the first ticket of an empty store is
    numbered "001", the second "002", and the first one after a confirmed
    reset "001" again. *)
Theorem C4_next_number (s : list Ticket) (f1 f2 f3 : ApplyForm)
    (u1 u2 u3 : jsstring) (n1 n2 n3 : Z) :
  valid_form f1 -> valid_form f2 -> valid_form f3 ->
  (0 <= maxNumber s /\
   (forall t n, In t s -> parseInt (number t) = Some n -> n <= maxNumber s) /\
   (maxNumber s = 0 \/
    exists t, In t s /\ parseInt (number t) = Some (maxNumber s))) /\
  (parseInt (nextNumber s) = Some (maxNumber s + 1) /\
   forallb isDigit (nextNumber s) = true /\
   (3 <= length (nextNumber s))%nat /\
   (maxNumber s + 1 < 1000 -> length (nextNumber s) = 3%nat)) /\
  map number (run [Create f1 u1 n1] []) = [lit "001"] /\
  map number (run [Create f1 u1 n1; Create f2 u2 n2] []) =
    [lit "001"; lit "002"] /\
  map number
    (run [Create f1 u1 n1; Create f2 u2 n2; Reset true; Create f3 u3 n3] []) =
    [lit "001"].
Proof.
  intros V1 V2 V3. pose proof (maxNumber_nonneg s) as M.
  split.
  { split; [exact M|]. split; [apply maxNumber_ge|apply maxNumber_attained]. }
  split.
  { split; [apply numberValue_nextNumber|].
    split; [apply pad3_digits; lia|].
    destruct (pad3_length (maxNumber s + 1)) as [L1 L2].
    split; [exact L1|]. intros B. apply L2. lia. }
  unfold run. cbn [fold_left step resetAll negb].
  rewrite !createTicket_accept by assumption.
  repeat split; reflexivity.
Qed.

(** The numbering of section 8 with the sample applicant. *)
Lemma C4_next_number_witness :
  valid_form sampleForm /\
  map number (run [Create sampleForm uuid1 1; Create sampleForm uuid2 2] []) =
    [lit "001"; lit "002"] /\
  map number
    (run [Create sampleForm uuid1 1; Create sampleForm uuid2 2; Reset true;
          Create sampleForm uuid3 3] []) = [lit "001"].
Proof.
  assert (V : valid_form sampleForm) by (split; discriminate).
  split; [exact V|].
  apply (C4_next_number [] sampleForm sampleForm sampleForm
           uuid1 uuid2 uuid3 1 2 3 V V V).
Defined.

(** C5 (as stated: false).  A ticket is taken and numbered "001", the store
    is reset, and the next ticket is numbered "001" again: the numbers of
    the tickets ever created are not pairwise distinct. *)
Lemma C5_number_reused_after_reset :
  fresh_run sampleReuse [] = true /\
  map number (everCreated sampleReuse []) = [lit "001"; lit "001"] /\
  ~ (forall ops, fresh_run ops [] = true ->
                 NoDup (map number (everCreated ops []))).
Proof.
  split; [reflexivity|]. split; [reflexivity|].
  intros H. specialize (H sampleReuse eq_refl).
  change (NoDup [lit "001"; lit "001"]) in H.
  apply NoDup_cons_iff in H as [H _]. apply H. left. reflexivity.
Qed.

(** C5 (amended).  In every store produced by a run from the empty store
    the display numbers are pairwise distinct and strictly increasing
    along the array; and over a run without a confirmed reset the numbers
    of all tickets ever created are pairwise distinct and strictly
    increasing in order of creation. *)
Theorem C5_numbers_unique_until_reset (ops : list Op) :
  (StronglySorted Z.lt (map numberValue (run ops [])) /\
   NoDup (map number (run ops []))) /\
  (existsb confirmed_reset ops = false ->
   StronglySorted Z.lt (map numberValue (everCreated ops [])) /\
   NoDup (map number (everCreated ops []))).
Proof.
  assert (N : numbers_ok (run ops [])).
  { apply run_numbers_ok. split; constructor. }
  split.
  - split; [apply N|apply numbers_ok_NoDup, N].
  - intros H. destruct (everCreated_numbers ops [] H) as [E1 E2].
    simpl in E1, E2. rewrite <- E1, <- E2.
    split; [apply N|apply numbers_ok_NoDup, N].
Qed.

(** A run without reset: the numbers created are pairwise distinct. *)
Lemma C5_numbers_unique_until_reset_witness :
  existsb confirmed_reset sampleCompleted = false /\
  NoDup (map number (everCreated sampleCompleted [])).
Proof.
  split; [reflexivity|].
  apply (C5_numbers_unique_until_reset sampleCompleted). reflexivity.
Defined.

(** ** Lifecycle *)

Lemma Forall_replace {A : Type} (P : A -> Prop) (l1 l2 : list A) (a b : A) :
  Forall P (l1 ++ a :: l2) -> P b -> Forall P (l1 ++ b :: l2).
Proof.
  rewrite !Forall_app, !Forall_cons_iff. tauto.
Qed.

Lemma nth_error_replace {A : Type} (l1 l2 : list A) (a b t : A) (i : nat) :
  nth_error (l1 ++ a :: l2) i = Some t ->
  (i = length l1 /\ t = a) \/ nth_error (l1 ++ b :: l2) i = Some t.
Proof.
  intros H. destruct (Nat.lt_total i (length l1)) as [L|[E|L]].
  - right. rewrite nth_error_app1 in * by exact L. exact H.
  - left. subst i. rewrite nth_error_app2, Nat.sub_diag in H by lia.
    simpl in H. split; congruence.
  - right. rewrite nth_error_app2 in * by lia.
    destruct (i - length l1)%nat as [|k] eqn:E; [lia|]. exact H.
Qed.

Lemma nth_error_replaced {A : Type} (l1 l2 : list A) (b : A) :
  nth_error (l1 ++ b :: l2) (length l1) = Some b.
Proof. rewrite nth_error_app2, Nat.sub_diag by lia. reflexivity. Qed.

Lemma transition_lifecycle (o : Op) (t t' : Ticket) :
  transition o t t' -> lifecycle_ok t -> lifecycle_ok t'.
Proof.
  unfold lifecycle_ok. intros [n x W|d n x W|x W|x]; simpl;
    try rewrite W; intuition congruence.
Qed.

Lemma step_lifecycle (o : Op) (s : list Ticket) :
  ids_unique s -> Forall lifecycle_ok s -> Forall lifecycle_ok (step o s).
Proof.
  intros U F.
  destruct (is_create o) eqn:Ec; [|destruct (is_reset o) eqn:Er].
  - destruct o as [f u n| | | | |]; try discriminate. simpl.
    destruct (createTicket_cases f u n s) as [[_ ->]|(_ & _ & ->)];
      [exact F|].
    apply Forall_app. split; [exact F|]. repeat constructor.
  - destruct o as [| | | | |ok]; try discriminate. simpl.
    destruct ok; simpl; [constructor|exact F].
  - destruct (step_transition o s U Ec Er)
      as [->|(t & t' & T & l1 & l2 & E & ->)]; [exact F|].
    rewrite E in F. eapply Forall_replace; [exact F|].
    apply (transition_lifecycle o t t' T).
    rewrite Forall_forall in F. apply F.
    apply in_elt.
Qed.

Lemma reachable_lifecycle (s : list Ticket) :
  reachable s -> Forall lifecycle_ok s.
Proof.
  induction 1 as [|o s R IH F]; [constructor|].
  apply step_lifecycle; [apply reachable_ids_unique|]; assumption.
Qed.

(** No operation but reset touches a ticket that is done or skipped,
    except bump-priority on its id, which changes its priority only. *)
Lemma terminal_frozen (o : Op) (s : list Ticket) (i : nat) (t : Ticket) :
  ids_unique s -> is_reset o = false ->
  nth_error s i = Some t -> is_terminal t = true ->
  exists t', nth_error (step o s) i = Some t' /\
    (t' = t \/
     o = Bump (id t) /\ t' = withPriority (nextPriority (priority t)) t).
Proof.
  intros U Er Hn Ht.
  assert (T : status t <> waiting /\ status t <> in_progress).
  { unfold is_terminal in Ht. destruct (status t); simpl in Ht;
      split; congruence. }
  destruct (is_create o) eqn:Ec.
  - destruct o as [f u n| | | | |]; try discriminate. simpl.
    exists t. split; [|left; reflexivity].
    destruct (createTicket_cases f u n s) as [[_ ->]|(_ & _ & ->)];
      [exact Hn|].
    rewrite nth_error_app1; [exact Hn|].
    apply nth_error_Some. congruence.
  - destruct (step_transition o s U Ec Er)
      as [->|(x & x' & Tr & l1 & l2 & E & ->)].
    { exists t. split; [exact Hn|left; reflexivity]. }
    rewrite E in Hn.
    destruct (nth_error_replace _ _ _ x' _ _ Hn) as [[-> ->]|H].
    + exists x'. split; [apply nth_error_replaced|].
      destruct Tr as [n y W|d n y W|y W|y]; try tauto.
    + exists t. split; [exact H|left; reflexivity].
Qed.

(** ** Completion *)

Lemma filter_nil_find {A : Type} (p : A -> bool) (l : list A) :
  filter p l = [] -> find p l = None.
Proof.
  induction l as [|x l IH]; simpl; [reflexivity|].
  destruct (p x); [discriminate|exact IH].
Qed.

Lemma markDone_clears (draft : jsstring) (now : Z) (s : list Ticket) :
  ids_unique s -> (length (filter is_in_progress s) <= 1)%nat ->
  inProgress (markDone draft now s) = None.
Proof.
  intros U C. destruct (inProgress s) as [c|] eqn:Hp.
  2:{ rewrite markDone_noop; assumption. }
  destruct (inProgress_Some s c Hp) as [_ W].
  destruct (markDone_frame draft now s c U Hp) as (l1 & l2 & E & ->).
  apply (filter_nil_find is_in_progress). rewrite E in C.
  rewrite filter_app in C. cbn [filter] in C. unfold is_in_progress at 2 in C.
  rewrite W in C. cbn [Status_eqb] in C.
  rewrite length_app in C. cbn [length] in C.
  assert (H1 : filter is_in_progress l1 = []).
  { destruct (filter is_in_progress l1); [reflexivity|simpl in C; lia]. }
  assert (H2 : filter is_in_progress l2 = []).
  { destruct (filter is_in_progress l2); [reflexivity|simpl in C; lia]. }
  rewrite filter_app. cbn [filter]. rewrite H1, H2. reflexivity.
Qed.

(** C7 (as stated: false).  With " ok " typed in the result box, complete
    stores "ok": the result is the text without its surrounding blanks,
    not the text supplied. *)
Lemma C7_result_is_trimmed :
  reachable (run sampleCalled []) /\
  (exists cur, inProgress (run sampleCalled []) = Some cur) /\
  map result (markDone (lit " ok ") 4000 (run sampleCalled [])) =
    [Some (lit "ok"); None] /\
  ~ (forall draft now s cur,
       reachable s -> inProgress s = Some cur ->
       In (completed draft now cur) (markDone draft now s)).
Proof.
  assert (R : reachable (run sampleCalled [])).
  { apply reachable_run; [constructor|reflexivity]. }
  split; [exact R|]. split; [eexists; reflexivity|].
  split; [reflexivity|].
  intros H.
  specialize (H (lit " ok ") 4000 (run sampleCalled []) _ R eq_refl).
  vm_compute in H. destruct H as [H|[H|[]]]; discriminate H.
Qed.

(** C7 (amended).  In a reachable store with an in_progress ticket, that
    ticket carries no doneAt and no result, and complete replaces exactly
    it, in place, by the same record with status done, doneAt = now and
    result = the supplied text trimmed of surrounding white space (possibly
    empty); afterwards no ticket is in_progress.  With no in_progress
    ticket complete returns the store unchanged.  No later operation but
    reset changes the doneAt or the result of a done ticket. *)
Theorem C7_complete (draft : jsstring) (now : Z) (s : list Ticket) :
  reachable s ->
  (forall cur,
     inProgress s = Some cur ->
     (doneAt cur = None /\ result cur = None) /\
     one_record_changed cur (completed (trim draft) now cur)
       s (markDone draft now s) /\
     (status (completed (trim draft) now cur) = done /\
      doneAt (completed (trim draft) now cur) = Some now /\
      result (completed (trim draft) now cur) = Some (trim draft)) /\
     inProgress (markDone draft now s) = None) /\
  (inProgress s = None -> markDone draft now s = s) /\
  (forall o i t,
     is_reset o = false -> nth_error s i = Some t -> status t = done ->
     exists t', nth_error (step o s) i = Some t' /\ status t' = done /\
                doneAt t' = doneAt t /\ result t' = result t).
Proof.
  intros R. pose proof (reachable_ids_unique s R) as U.
  split; [|split].
  - intros cur Hp. destruct (inProgress_Some s cur Hp) as [Hin W].
    split.
    { pose proof (reachable_lifecycle s R) as L.
      rewrite Forall_forall in L. specialize (L cur Hin).
      unfold lifecycle_ok in L. rewrite W in L. tauto. }
    split.
    { destruct (markDone_frame draft now s cur U Hp) as (l1 & l2 & E1 & E2).
      exists l1, l2. split; assumption. }
    split; [repeat split|].
    apply markDone_clears; [exact U|apply reachable_one_in_progress, R].
  - apply markDone_noop.
  - intros o i t Hr Hn Hd.
    assert (Ht : is_terminal t = true).
    { unfold is_terminal. rewrite Hd. reflexivity. }
    destruct (terminal_frozen o s i t U Hr Hn Ht) as (t' & Hn' & H).
    exists t'. split; [exact Hn'|].
    destruct H as [->|[_ ->]]; simpl; auto.
Qed.

(** Completing the ticket in progress of the sample run. *)
Lemma C7_complete_witness :
  reachable (run sampleCalled []) /\
  (forall cur,
     inProgress (run sampleCalled []) = Some cur ->
     one_record_changed cur (completed (trim (lit " ok ")) 4000 cur)
       (run sampleCalled [])
       (markDone (lit " ok ") 4000 (run sampleCalled []))).
Proof.
  assert (R : reachable (run sampleCalled [])).
  { apply reachable_run; [constructor|reflexivity]. }
  split; [exact R|]. intros cur Hp.
  apply (C7_complete (lit " ok ") 4000 (run sampleCalled []) R). exact Hp.
Defined.

(** ** Daily statistics *)

Lemma Math_round_div (a b : Z) :
  0 < b -> Math_round (inject_Z a / inject_Z b) = (2 * a + b) / (2 * b).
Proof.
  intros H. destruct b as [|p|p]; try lia.
  unfold Math_round, Qfloor, Qplus, Qdiv, Qmult, Qinv, inject_Z.
  cbn [Qnum Qden]. f_equal; lia.
Qed.

Lemma Math_round_nearest (a b : Z) :
  0 < b -> nearest_to a b (Math_round (inject_Z a / inject_Z b)).
Proof.
  intros H. rewrite Math_round_div by exact H. unfold nearest_to.
  pose proof (Z.div_mod (2 * a + b) (2 * b) ltac:(lia)) as D.
  pose proof (Z.mod_pos_bound (2 * a + b) (2 * b) ltac:(lia)) as M.
  generalize dependent ((2 * a + b) / (2 * b)).
  generalize dependent ((2 * a + b) mod (2 * b)).
  intros m M q D. nia.
Qed.

Lemma minutesBetween_nearest (a b : Z) :
  exists r, nearest_to (b - a) 60000 r /\ minutesBetween a b = Z.max 0 r.
Proof.
  eexists. split; [|reflexivity]. apply Math_round_nearest. lia.
Qed.

Lemma fold_add_sumZ {A : Type} (F : Z -> A -> Z) (f : A -> Z) (l : list A)
    (a : Z) :
  (forall acc x, F acc x = acc + f x) ->
  fold_left F l a = a + sumZ (map f l).
Proof.
  intros H. revert a. induction l as [|x l IH]; intros a; simpl; [lia|].
  rewrite IH, H. lia.
Qed.

Lemma sumZ_perm {A : Type} (f : A -> Z) (l l' : list A) :
  Permutation l l' -> sumZ (map f l) = sumZ (map f l').
Proof.
  induction 1; simpl; lia.
Qed.

Section StatisticsFacts.
Variable tz : LocalTime.

Lemma todayDone_In (t : Z) (s : list Ticket) (x : Ticket) :
  In x (todayDone tz t s) <-> In x s /\ completed_on tz t x.
Proof.
  unfold todayDone, completed_on. rewrite filter_In.
  destruct (doneAt x) as [d|]; split; intros [H1 H2]; split; auto.
  - exists d. auto.
  - destruct H2 as (d' & E & H2). congruence.
  - discriminate.
  - destruct H2 as (d' & E & _). discriminate.
Qed.

Lemma waitRows_In (t : Z) (s : list Ticket) (x : Ticket) :
  In x (waitRows tz t s) <-> In x s /\ started_on tz t x.
Proof.
  unfold waitRows, started_on. rewrite filter_In.
  destruct (startedAt x) as [b|]; split; intros [H1 H2]; split; auto.
  - exists b. auto.
  - destruct H2 as (b' & E & H2). congruence.
  - discriminate.
  - destruct H2 as (b' & E & _). discriminate.
Qed.

Lemma handleRows_In (t : Z) (s : list Ticket) (x : Ticket) :
  In x (handleRows tz t s) <->
  In x s /\ startedAt x <> None /\ completed_on tz t x.
Proof.
  unfold handleRows, completed_on. rewrite filter_In.
  destruct (startedAt x) as [b|], (doneAt x) as [d|]; split;
    intros [H1 H2]; split; auto; try discriminate.
  - split; [discriminate|]. exists d. auto.
  - destruct H2 as (_ & d' & E & H2). congruence.
  - destruct H2 as (_ & d' & E & _). discriminate.
  - destruct H2 as (H2 & _). congruence.
  - destruct H2 as (H2 & _). congruence.
Qed.

Lemma avg_wait_nearest (t : Z) (s : list Ticket) :
  waitRows tz t s <> [] ->
  nearest_to (sumZ (map waitMinutes (waitRows tz t s)))
             (Z.of_nat (length (waitRows tz t s)))
             (avgTodayWaitMinutes tz t s).
Proof.
  intros H. unfold avgTodayWaitMinutes.
  destruct (waitRows tz t s) as [|x rows] eqn:E; [congruence|].
  cbn [length Nat.eqb].
  rewrite (fold_add_sumZ _ waitMinutes).
  - apply Math_round_nearest. simpl length. lia.
  - intros acc y. unfold waitMinutes. destruct (startedAt y); lia.
Qed.

Lemma avg_handle_nearest (t : Z) (s : list Ticket) :
  handleRows tz t s <> [] ->
  nearest_to (sumZ (map handleMinutes (handleRows tz t s)))
             (Z.of_nat (length (handleRows tz t s)))
             (avgTodayHandleMinutes tz t s).
Proof.
  intros H. unfold avgTodayHandleMinutes.
  destruct (handleRows tz t s) as [|x rows] eqn:E; [congruence|].
  cbn [length Nat.eqb].
  rewrite (fold_add_sumZ _ handleMinutes).
  - apply Math_round_nearest. simpl length. lia.
  - intros acc y. unfold handleMinutes.
    destruct (startedAt y), (doneAt y); lia.
Qed.

Lemma handleRows_todayDone (t : Z) (s : list Ticket) :
  Forall lifecycle_ok s -> handleRows tz t s = todayDone tz t s.
Proof.
  intros F. unfold handleRows, todayDone. apply filter_ext_in.
  intros x Hin. rewrite Forall_forall in F. specialize (F x Hin).
  unfold lifecycle_ok in F.
  destruct (startedAt x), (doneAt x); try reflexivity.
  destruct (status x); intuition congruence.
Qed.

Lemma isSameLocalDay_iff (a b : Z) :
  isSameLocalDay tz a b = true <-> same_calendar_day tz a b.
Proof.
  unfold isSameLocalDay, same_calendar_day.
  rewrite !andb_true_iff, !Z.eqb_eq. tauto.
Qed.

Lemma enumerates_perm (P : Ticket -> Prop) (s l l' : list Ticket) :
  enumerates P s l -> enumerates P s l' -> Permutation l l'.
Proof.
  intros [N H] [N' H']. apply NoDup_Permutation; [exact N|exact N'|].
  intros x. rewrite H, H'. reflexivity.
Qed.

Lemma enumerates_rev (P : Ticket -> Prop) (s l : list Ticket) :
  enumerates P s l -> enumerates P s (rev l).
Proof.
  intros [N H]. split; [apply NoDup_rev, N|].
  intros x. rewrite <- in_rev. apply H.
Qed.

Lemma todayDone_enumerates (t : Z) (s : list Ticket) :
  ids_unique s -> enumerates (completed_that_day tz t) s (todayDone tz t s).
Proof.
  intros U. split.
  - apply NoDup_filter. apply NoDup_map_inv in U. exact U.
  - intros x. rewrite todayDone_In. unfold completed_on, completed_that_day.
    split; intros [Hin (d & E & H)]; (split; [exact Hin|]); exists d;
      (split; [exact E|]); apply isSameLocalDay_iff; exact H.
Qed.

Lemma waitRows_enumerates (t : Z) (s : list Ticket) :
  ids_unique s -> enumerates (started_that_day tz t) s (waitRows tz t s).
Proof.
  intros U. split.
  - apply NoDup_filter. apply NoDup_map_inv in U. exact U.
  - intros x. rewrite waitRows_In. unfold started_on, started_that_day.
    split; intros [Hin (d & E & H)]; (split; [exact Hin|]); exists d;
      (split; [exact E|]); apply isSameLocalDay_iff; exact H.
Qed.

Lemma handleRows_enumerates (t : Z) (s : list Ticket) :
  ids_unique s ->
  enumerates (fun x => completed_that_day tz t x /\ startedAt x <> None)
    s (handleRows tz t s).
Proof.
  intros U. split.
  - apply NoDup_filter. apply NoDup_map_inv in U. exact U.
  - intros x. rewrite handleRows_In. unfold completed_on, completed_that_day.
    split.
    + intros (Hin & Hs & d & E & H). split; [exact Hin|].
      split; [|exact Hs]. exists d. split; [exact E|].
      apply isSameLocalDay_iff, H.
    + intros (Hin & (d & E & H) & Hs). split; [exact Hin|].
      split; [exact Hs|]. exists d. split; [exact E|].
      apply isSameLocalDay_iff, H.
Qed.

(** C8 (amended).  Take a store with pairwise distinct ids and the local
    day of [t].  The count shown is the number of tickets whose doneAt
    falls on that day.  The average waiting time is 0 when no ticket was
    started that day, and otherwise the integer nearest (halves up) to the
    mean, over the tickets started that day, of their whole waiting
    minutes - each ticket's minutes being startedAt - createdAt rounded to
    the nearest minute and not less than 0.  The average handling time is
    the same over the tickets completed that day that have a startedAt,
    with doneAt - startedAt; in a reachable store these are all the
    tickets completed that day.  The tickets of a day may be listed in any
    order ([done_], [started], [handled]). *)
Theorem C8_daily_statistics (t : Z) (s done_ started handled : list Ticket) :
  ids_unique s ->
  enumerates (completed_that_day tz t) s done_ ->
  enumerates (started_that_day tz t) s started ->
  enumerates (fun x => completed_that_day tz t x /\ startedAt x <> None)
    s handled ->
  length (todayDone tz t s) = length done_ /\
  (started = [] -> avgTodayWaitMinutes tz t s = 0) /\
  (started <> [] ->
   nearest_to (sumZ (map waitMinutes started))
              (Z.of_nat (length started))
              (avgTodayWaitMinutes tz t s)) /\
  (handled = [] -> avgTodayHandleMinutes tz t s = 0) /\
  (handled <> [] ->
   nearest_to (sumZ (map handleMinutes handled))
              (Z.of_nat (length handled))
              (avgTodayHandleMinutes tz t s)) /\
  (forall x b, startedAt x = Some b ->
     exists r, nearest_to (b - createdAt x) 60000 r /\
               waitMinutes x = Z.max 0 r) /\
  (forall x b d, startedAt x = Some b -> doneAt x = Some d ->
     exists r, nearest_to (d - b) 60000 r /\
               handleMinutes x = Z.max 0 r) /\
  (reachable s -> Permutation handled done_).
Proof.
  intros U Ed Es Eh.
  pose proof (enumerates_perm _ _ _ _ (todayDone_enumerates t s U) Ed) as Pd.
  pose proof (enumerates_perm _ _ _ _ (waitRows_enumerates t s U) Es) as Ps.
  pose proof (enumerates_perm _ _ _ _ (handleRows_enumerates t s U) Eh) as Ph.
  split; [apply Permutation_length, Pd|].
  split.
  { intros ->. apply Permutation_sym, Permutation_nil in Ps.
    unfold avgTodayWaitMinutes. rewrite Ps. reflexivity. }
  split.
  { intros NE. rewrite <- (sumZ_perm waitMinutes _ _ Ps).
    rewrite <- (Permutation_length Ps). apply avg_wait_nearest.
    intros E. rewrite E in Ps. apply Permutation_nil in Ps. congruence. }
  split.
  { intros ->. apply Permutation_sym, Permutation_nil in Ph.
    unfold avgTodayHandleMinutes. rewrite Ph. reflexivity. }
  split.
  { intros NE. rewrite <- (sumZ_perm handleMinutes _ _ Ph).
    rewrite <- (Permutation_length Ph). apply avg_handle_nearest.
    intros E. rewrite E in Ph. apply Permutation_nil in Ph. congruence. }
  split.
  { intros x b E. unfold waitMinutes. rewrite E.
    apply minutesBetween_nearest. }
  split.
  { intros x b d E1 E2. unfold handleMinutes. rewrite E1, E2.
    apply minutesBetween_nearest. }
  intros R. symmetry. rewrite <- Ph, <- Pd.
  rewrite (handleRows_todayDone t s (reachable_lifecycle s R)).
  reflexivity.
Qed.
End StatisticsFacts.

(** The sample day, its tickets listed last to first: two completed, and
    an average wait of 1 minute, the integer nearest to (1 + 1 + 0) / 3. *)
Lemma C8_daily_statistics_witness :
  ids_unique (run sampleStats []) /\
  length (todayDone utc1970 60000 (run sampleStats [])) = 2%nat /\
  nearest_to 2 3 (avgTodayWaitMinutes utc1970 60000 (run sampleStats [])).
Proof.
  assert (U : ids_unique (run sampleStats []))
    by (apply sample_ids_unique; reflexivity).
  split; [exact U|].
  destruct (C8_daily_statistics utc1970 60000 (run sampleStats [])
              (rev (todayDone utc1970 60000 (run sampleStats [])))
              (rev (waitRows utc1970 60000 (run sampleStats [])))
              (rev (handleRows utc1970 60000 (run sampleStats []))) U)
    as (H1 & _ & H3 & _).
  - apply enumerates_rev, todayDone_enumerates, U.
  - apply enumerates_rev, waitRows_enumerates, U.
  - apply enumerates_rev, handleRows_enumerates, U.
  - split; [exact H1|]. apply H3. discriminate.
Defined.

(** C8 (as stated: false).  Three tickets started today waited 36 s, 36 s
    and 0 s.  Their mean wait is 0.4 minutes, which rounds to 0; the
    statistic shows 1, because it averages 1, 1 and 0: each ticket's wait
    is rounded to whole minutes before the mean is taken. *)
Lemma C8_average_of_rounded_minutes :
  reachable (run sampleStats []) /\
  map waitMillis (waitRows utc1970 60000 (run sampleStats []))
    = [36000; 36000; 0] /\
  exactAvgMinutes [36000; 36000; 0] = 0 /\
  avgTodayWaitMinutes utc1970 60000 (run sampleStats []) = 1 /\
  ~ (forall tz t s,
       reachable s ->
       avgTodayWaitMinutes tz t s =
       exactAvgMinutes (map waitMillis (waitRows tz t s))).
Proof.
  assert (R : reachable (run sampleStats [])).
  { apply reachable_run; [constructor|reflexivity]. }
  split; [exact R|]. split; [reflexivity|].
  split; [reflexivity|]. split; [reflexivity|].
  intros H. specialize (H utc1970 60000 _ R).
  vm_compute in H. discriminate H.
Qed.

(** ** Normalisation of the apply form *)

Lemma trimStart_split (x : jsstring) :
  exists pre, x = pre ++ trimStart x /\ forallb isWhiteSpace pre = true.
Proof.
  induction x as [|c x (pre & E & W)]; simpl.
  - exists []. split; reflexivity.
  - destruct (isWhiteSpace c) eqn:Ec.
    + exists (c :: pre). simpl. rewrite Ec, W.
      split; [f_equal; exact E|reflexivity].
    + exists []. split; reflexivity.
Qed.

Lemma trimStart_head (x : jsstring) :
  match trimStart x with
  | [] => True
  | c :: _ => isWhiteSpace c = false
  end.
Proof.
  induction x as [|c x IH]; simpl; [exact I|].
  destruct (isWhiteSpace c) eqn:Ec; [exact IH|exact Ec].
Qed.

Lemma trimStart_blank (x : jsstring) :
  forallb isWhiteSpace x = true -> trimStart x = [].
Proof.
  induction x as [|c x IH]; simpl; [reflexivity|].
  destruct (isWhiteSpace c); [exact IH|discriminate].
Qed.

Lemma forallb_rev {A : Type} (p : A -> bool) (l : list A) :
  forallb p (rev l) = forallb p l.
Proof.
  induction l as [|a l IH]; simpl; [reflexivity|].
  rewrite forallb_app, IH. simpl. rewrite andb_true_r. apply andb_comm.
Qed.

Lemma trimEnd_split (x : jsstring) :
  exists post, x = trimEnd x ++ post /\ forallb isWhiteSpace post = true.
Proof.
  destruct (trimStart_split (rev x)) as (pre & E & W).
  exists (rev pre). split.
  - unfold trimEnd. rewrite <- rev_app_distr, <- E, rev_involutive.
    reflexivity.
  - rewrite forallb_rev. exact W.
Qed.

Lemma trim_stripped (x : jsstring) : stripped_of x (trim x).
Proof.
  destruct (trimStart_split x) as (pre & E1 & W1).
  destruct (trimEnd_split (trimStart x)) as (post & E2 & W2).
  exists pre, post. unfold trim. rewrite <- E2. auto.
Qed.

Lemma trim_blank (x : jsstring) :
  forallb isWhiteSpace x = true -> trim x = [].
Proof.
  intros H. unfold trim. rewrite trimStart_blank by exact H. reflexivity.
Qed.

Lemma last_rev_head {A : Type} (l : list A) (c d : A) :
  last (rev (c :: l)) d = c.
Proof. simpl. apply last_last. Qed.

Lemma trim_no_outer_space (x : jsstring) : no_outer_space (trim x).
Proof.
  unfold no_outer_space.
  destruct (trim x) as [|c r] eqn:E; [exact I|]. split.
  - pose proof (trimStart_head x) as H.
    destruct (trimEnd_split (trimStart x)) as (post & E2 & _).
    fold (trim x) in E2. rewrite E in E2. rewrite E2 in H. exact H.
  - pose proof (trimStart_head (rev (trimStart x))) as H.
    unfold trim, trimEnd in E.
    destruct (trimStart (rev (trimStart x))) as [|e y]; [discriminate|].
    rewrite <- E. rewrite last_rev_head. exact H.
Qed.

Lemma normalizeEta_positive (eta : Number) : 1 <= normalizeEta eta.
Proof. destruct eta; simpl; lia. Qed.

Lemma step_eta (o : Op) (s : list Ticket) :
  Forall (fun t => 1 <= etaMinutes t) s ->
  Forall (fun t => 1 <= etaMinutes t) (step o s).
Proof.
  intros F.
  destruct (is_create o) eqn:Ec; [|destruct (is_reset o) eqn:Er].
  - destruct o as [f u n| | | | |]; try discriminate. simpl.
    destruct (createTicket_cases f u n s) as [[_ ->]|(_ & _ & ->)];
      [exact F|].
    apply Forall_app. split; [exact F|].
    repeat constructor. apply normalizeEta_positive.
  - destruct o as [| | | | |ok]; try discriminate. simpl.
    destruct ok; simpl; [constructor|exact F].
  - destruct (step_map o s Ec Er) as (g & -> & K).
    apply Forall_map. eapply Forall_impl; [|exact F].
    intros t H. simpl. destruct (K t) as (_ & _ & _ & _ & -> & _). exact H.
Qed.

Lemma reachable_eta (s : list Ticket) :
  reachable s -> Forall (fun t => 1 <= etaMinutes t) s.
Proof.
  induction 1 as [|o s R IH F]; [constructor|].
  apply step_eta. exact IH.
Qed.

(** C10.  [createTicket] works on normalised inputs: the name and the
    description with the white space at both ends removed, and the
    estimate replaced by 15 when it is not a finite number and otherwise by
    its floor, raised to 1 when smaller.  The check is made on the trimmed
    strings: when one of them is empty - in particular for a name or a
    description of white space only - the store is returned unchanged; when
    both are non-empty the store gets exactly one new record, which
    carries the trimmed name, the trimmed description and the normalised
    estimate.  Every ticket of a reachable store has an integer estimate
    of at least 1. *)
Theorem C10_create_normalizes (form : ApplyForm) (uuid : jsstring) (now : Z)
    (s : list Ticket) :
  (stripped_of (applyName form) (trim (applyName form)) /\
   no_outer_space (trim (applyName form)) /\
   stripped_of (applyDesc form) (trim (applyDesc form)) /\
   no_outer_space (trim (applyDesc form))) /\
  (forallb isWhiteSpace (applyName form) = true \/
   forallb isWhiteSpace (applyDesc form) = true ->
   createTicket form uuid now s = s) /\
  (trim (applyName form) = [] \/ trim (applyDesc form) = [] ->
   createTicket form uuid now s = s) /\
  (trim (applyName form) <> [] -> trim (applyDesc form) <> [] ->
   createTicket form uuid now s =
     s ++ [ {| id := uuid; number := nextNumber s;
               name := trim (applyName form);
               desc := trim (applyDesc form);
               priority := applyPriority form;
               etaMinutes := normalizeEta (applyEta form);
               status := waiting; createdAt := now;
               startedAt := None; doneAt := None; result := None |} ]) /\
  (Number_isFinite (applyEta form) = false ->
   normalizeEta (applyEta form) = 15) /\
  (forall q, applyEta form = Finite q ->
     normalizeEta (applyEta form) = Z.max 1 (Qfloor q) /\
     (inject_Z (Qfloor q) <= q < inject_Z (Qfloor q + 1))%Q) /\
  1 <= normalizeEta (applyEta form) /\
  (reachable s -> Forall (fun t => 1 <= etaMinutes t) s).
Proof.
  split.
  { repeat split; try apply trim_stripped; apply trim_no_outer_space. }
  assert (B : trim (applyName form) = [] \/ trim (applyDesc form) = [] ->
              createTicket form uuid now s = s).
  { intros H.
    destruct (createTicket_cases form uuid now s) as [[_ E]|(Hn & Hd & _)];
      [exact E|].
    destruct H; contradiction. }
  split.
  { intros [H|H]; apply B; [left|right]; apply trim_blank, H. }
  split; [exact B|].
  split.
  { intros Hn Hd. apply createTicket_accept. split; assumption. }
  split.
  { destruct (applyEta form); simpl; congruence. }
  split.
  { intros q ->. split; [reflexivity|].
    split; [apply Qfloor_le|apply Qlt_floor]. }
  split; [apply normalizeEta_positive|apply reachable_eta].
Qed.

(** A form with blanks around the name and the description and an
    estimate of three and a half minutes is stored trimmed, with estimate
    3; a blank name is rejected; the stored estimates are at least 1. *)
Lemma C10_create_normalizes_witness :
  reachable (run sampleTaken []) /\
  Forall (fun t => 1 <= etaMinutes t) (run sampleTaken []) /\
  createTicket (mkForm (lit "  ") (lit "x") low NaN) uuid3 9
    (run sampleTaken []) = run sampleTaken [] /\
  createTicket (mkForm (lit "  Li ") (lit " visa  ") high (Finite (7 # 2)))
    uuid3 9 (run sampleTaken []) =
  run sampleTaken [] ++
    [ {| id := uuid3; number := lit "003";
         name := lit "Li"; desc := lit "visa";
         priority := high; etaMinutes := 3;
         status := waiting; createdAt := 9;
         startedAt := None; doneAt := None; result := None |} ].
Proof.
  assert (R : reachable (run sampleTaken [])).
  { apply reachable_run; [constructor|reflexivity]. }
  split; [exact R|].
  destruct (C10_create_normalizes (mkForm (lit "  ") (lit "x") low NaN)
              uuid3 9 (run sampleTaken []))
    as (_ & H2 & _ & _ & _ & _ & _ & H8).
  split; [exact (H8 R)|]. split; [apply H2; left; reflexivity|].
  destruct (C10_create_normalizes
              (mkForm (lit "  Li ") (lit " visa  ") high (Finite (7 # 2)))
              uuid3 9 (run sampleTaken []))
    as (_ & _ & _ & H4 & _).
  apply H4; discriminate.
Defined.

(** * Further properties of the code *)

(** ** [trim] *)

Lemma trimStart_blank_app (pre x : jsstring) :
  forallb isWhiteSpace pre = true -> trimStart (pre ++ x) = trimStart x.
Proof.
  induction pre as [|c pre IH]; simpl; [reflexivity|].
  destruct (isWhiteSpace c); [exact IH|discriminate].
Qed.

Lemma trimStart_fixed (c : N) (x : jsstring) :
  isWhiteSpace c = false -> trimStart (c :: x) = c :: x.
Proof. intros H. simpl. rewrite H. reflexivity. Qed.

Lemma rev_last_head {A : Type} (c : A) (x : list A) :
  exists y, rev (c :: x) = last (c :: x) c :: y.
Proof.
  destruct (exists_last (l := c :: x)) as (y & a & E); [discriminate|].
  exists (rev y). rewrite E, last_last, rev_app_distr. reflexivity.
Qed.

Lemma trimEnd_fixed (x : jsstring) : no_outer_space x -> trimEnd x = x.
Proof.
  unfold no_outer_space, trimEnd. destruct x as [|c x]; [reflexivity|].
  intros [_ H]. destruct (rev_last_head c x) as (y & E).
  rewrite E, trimStart_fixed by exact H. rewrite <- E.
  apply rev_involutive.
Qed.

Lemma trimEnd_blank_app (x post : jsstring) :
  forallb isWhiteSpace post = true -> trimEnd (x ++ post) = trimEnd x.
Proof.
  intros H. unfold trimEnd. rewrite rev_app_distr, trimStart_blank_app.
  - reflexivity.
  - rewrite forallb_rev. exact H.
Qed.

Lemma trim_core (x y : jsstring) :
  stripped_of x y -> no_outer_space y -> trim x = y.
Proof.
  intros (pre & post & -> & W1 & W2) Hy. unfold trim.
  rewrite trimStart_blank_app by exact W1.
  destruct y as [|c y].
  - simpl. rewrite trimStart_blank by exact W2. reflexivity.
  - destruct Hy as [Hc Hl]. simpl app.
    rewrite trimStart_fixed by exact Hc.
    change (c :: y ++ post) with ((c :: y) ++ post).
    rewrite trimEnd_blank_app by exact W2.
    apply trimEnd_fixed. split; assumption.
Qed.

(** X1.  [trim] returns the core of its argument: whenever the argument is
    some white space, a string without white space at either end, and
    some white space again, the result is that middle string; hence
    trimming twice is trimming once, and a string of white space only
    trims to the empty string. *)
Theorem X1_trim_core (x y : jsstring) :
  (stripped_of x y -> no_outer_space y -> trim x = y) /\
  trim (trim x) = trim x /\
  (forallb isWhiteSpace x = true -> trim x = []).
Proof.
  split; [apply trim_core|]. split; [|apply trim_blank].
  apply trim_core; [|apply trim_no_outer_space].
  exists [], []. rewrite app_nil_r. repeat split.
Qed.

(** The sample name, blanks included, trims to its two characters. *)
Lemma X1_trim_core_witness :
  trim [32; 9; 23567; 29579; 160; 32]%N = [23567; 29579]%N.
Proof.
  destruct (X1_trim_core [32; 9; 23567; 29579; 160; 32]%N [23567; 29579]%N)
    as [H _].
  apply H.
  - exists [32; 9]%N, [160; 32]%N. repeat split.
  - split; reflexivity.
Defined.

(** ** Looking a ticket up by its number *)

Lemma digit_not_space (c : N) : isDigit c = true -> isWhiteSpace c = false.
Proof.
  intros H. apply isDigit_cases in H.
  repeat (destruct H as [->|H]; [reflexivity|]). subst c. reflexivity.
Qed.

Lemma digits_no_outer_space (x : jsstring) :
  forallb isDigit x = true -> no_outer_space x.
Proof.
  intros H. destruct x as [|c x]; [exact I|].
  rewrite forallb_forall in H. split; apply digit_not_space, H.
  - left. reflexivity.
  - destruct (rev_last_head c x) as (y & E).
    apply in_rev. rewrite E. left. reflexivity.
Qed.

Lemma pad3_trim (n : Z) : 0 <= n -> trim (pad3 n) = pad3 n /\ pad3 n <> [].
Proof.
  intros H. split.
  - apply trim_core.
    + exists [], []. rewrite app_nil_r. repeat split.
    + apply digits_no_outer_space, pad3_digits, H.
  - destruct (pad3_length n) as [L _]. intros E. rewrite E in L.
    simpl in L. lia.
Qed.

Lemma find_unique {A : Type} (f : A -> jsstring) (s : list A) (t : A) :
  NoDup (map f s) -> In t s ->
  find (fun x => str_eqb (f x) (f t)) s = Some t.
Proof.
  induction s as [|x s IH]; simpl; intros ND Hin; [contradiction|].
  apply NoDup_cons_iff in ND as [Hx ND].
  destruct Hin as [->|Hin]; [rewrite str_eqb_refl; reflexivity|].
  destruct (str_eqb (f x) (f t)) eqn:E; [|apply IH; assumption].
  apply str_eqb_eq in E. exfalso. apply Hx. rewrite E.
  apply in_map. exact Hin.
Qed.

Lemma find_none_iff {A : Type} (p : A -> bool) (s : list A) :
  (forall x, In x s -> p x = false) -> find p s = None.
Proof.
  induction s as [|x s IH]; simpl; intros H; [reflexivity|].
  rewrite (H x) by (left; reflexivity). apply IH. auto.
Qed.

Lemma queriedTicket_found (s : list Ticket) (t : Ticket) (q : jsstring) :
  numbers_ok s -> In t s -> stripped_of q (number t) ->
  queriedTicket q s = Some t.
Proof.
  intros N Hin Hq. pose proof (numbers_ok_NoDup s N) as ND.
  destruct N as [_ F]. rewrite Forall_forall in F.
  destruct (F t Hin) as [E B].
  assert (P : 0 <= numberValue t) by lia.
  destruct (pad3_trim _ P) as [T1 T2]. rewrite <- E in T1, T2.
  unfold queriedTicket.
  rewrite (trim_core q (number t) Hq).
  - destruct (number t) eqn:En; [congruence|]. simpl negb. cbv iota.
    rewrite <- En. apply (find_unique number); assumption.
  - rewrite E. apply digits_no_outer_space, pad3_digits, P.
Qed.

Lemma nextNumber_fresh (s : list Ticket) :
  numbers_ok s -> forall x, In x s -> number x <> nextNumber s.
Proof.
  intros [_ F] x Hin E. rewrite Forall_forall in F.
  destruct (F x Hin) as [Ex B].
  assert (P : parseInt (number x) = Some (numberValue x)).
  { rewrite Ex at 1. apply parseInt_pad3. lia. }
  pose proof (maxNumber_ge s x _ Hin P) as G.
  rewrite E, numberValue_nextNumber in P. injection P as P. lia.
Qed.

(** X2.  In a reachable store every ticket is found by its display
    number, whatever white space surrounds the number typed; what the
    query returns is a stored ticket with the trimmed text as number; a
    blank query finds nothing; and the number announced as next is not yet
    taken by any stored ticket. *)
Theorem X2_query_by_number (s : list Ticket) (t : Ticket) (q : jsstring) :
  reachable s ->
  (In t s -> stripped_of q (number t) -> queriedTicket q s = Some t) /\
  (queriedTicket q s = Some t -> In t s /\ number t = trim q) /\
  (forallb isWhiteSpace q = true -> queriedTicket q s = None) /\
  queriedTicket (nextNumber s) s = None /\
  ~ In (nextNumber s) (map number s).
Proof.
  intros R. pose proof (reachable_numbers_ok s R) as N.
  split; [apply queriedTicket_found, N|].
  split.
  { unfold queriedTicket. destruct (str_truthy (trim q)); [|discriminate].
    simpl. intros H. apply find_some in H as [H1 H2].
    apply str_eqb_eq in H2. auto. }
  split.
  { intros H. unfold queriedTicket. rewrite trim_blank by exact H.
    reflexivity. }
  split.
  - unfold queriedTicket. destruct (str_truthy _); [|reflexivity]. simpl.
    apply find_none_iff. intros x Hin.
    destruct (str_eqb (number x) (trim (nextNumber s))) eqn:E;
      [|reflexivity].
    apply str_eqb_eq in E. exfalso.
    apply (nextNumber_fresh s N x Hin). rewrite E.
    apply pad3_trim. pose proof (maxNumber_nonneg s). lia.
  - intros H. apply in_map_iff in H as (x & E & Hin).
    apply (nextNumber_fresh s N x Hin E).
Qed.

(** Ticket 002 of the sample run is found by " 002 ". *)
Lemma X2_query_by_number_witness :
  reachable (run sampleCalled []) /\
  exists t, nth_error (run sampleCalled []) 1 = Some t /\
            queriedTicket (lit " 002 ") (run sampleCalled []) = Some t.
Proof.
  assert (R : reachable (run sampleCalled [])).
  { apply reachable_run; [constructor|reflexivity]. }
  split; [exact R|].
  eexists. split; [reflexivity|].
  apply (X2_query_by_number (run sampleCalled []) _ (lit " 002 ") R).
  - right. left. reflexivity.
  - exists [32%N], [32%N]. repeat split.
Defined.

(** ** Position in the queue *)

Lemma ids_unique_inj (s : list Ticket) (x y : Ticket) :
  ids_unique s -> In x s -> In y s -> id x = id y -> x = y.
Proof.
  unfold ids_unique. induction s as [|a s IH]; simpl; intros ND Hx Hy E;
    [contradiction|].
  apply NoDup_cons_iff in ND as [Ha ND].
  destruct Hx as [->|Hx], Hy as [->|Hy]; auto.
  - exfalso. apply Ha. rewrite E. apply in_map. exact Hy.
  - exfalso. apply Ha. rewrite <- E. apply in_map. exact Hx.
Qed.

Lemma waitingQueue_NoDup (s : list Ticket) :
  ids_unique s -> NoDup (waitingQueue s).
Proof.
  intros U. apply NoDup_map_inv in U.
  eapply Permutation_NoDup.
  - symmetry. apply sortWaitingQueue_perm.
  - apply NoDup_filter. exact U.
Qed.

Lemma findIndex_first {A : Type} (p : A -> bool) (l : list A) (i : nat)
    (x : A) :
  nth_error l i = Some x -> p x = true ->
  (forall j y, (j < i)%nat -> nth_error l j = Some y -> p y = false) ->
  findIndex p l = Z.of_nat i.
Proof.
  revert i. induction l as [|a l IH]; intros [|i] Hn Hp Hlt;
    try discriminate; simpl in *.
  - injection Hn as ->. rewrite Hp. reflexivity.
  - rewrite (Hlt 0%nat a) by (reflexivity || lia).
    rewrite (IH i Hn Hp).
    + destruct (Z.ltb_spec (Z.of_nat i) 0); lia.
    + intros j y Hj Hy. apply (Hlt (S j) y); [lia|exact Hy].
Qed.

Lemma queriedAheadCount_at (s : list Ticket) (q : jsstring) (t : Ticket)
    (i : nat) :
  ids_unique s -> queriedTicket q s = Some t ->
  nth_error (waitingQueue s) i = Some t ->
  queriedAheadCount q s =
  Some (Z.of_nat i + match inProgress s with Some _ => 1 | None => 0 end).
Proof.
  intros U Hq Hn. unfold queriedAheadCount. rewrite Hq.
  assert (Hin : In t (waitingQueue s)) by (eapply nth_error_In; exact Hn).
  apply sortWaitingQueue_In in Hin as [Hin W].
  rewrite W. simpl negb. cbv iota.
  rewrite (findIndex_first _ _ i t Hn (str_eqb_refl _)).
  - destruct (Z.leb_spec 0 (Z.of_nat i)); [reflexivity|lia].
  - intros j y Hj Hy.
    destruct (str_eqb (id y) (id t)) eqn:E; [|reflexivity]. exfalso.
    apply str_eqb_eq in E.
    assert (Hy' : In y (waitingQueue s)) by (eapply nth_error_In; exact Hy).
    apply sortWaitingQueue_In in Hy' as [Hy' _].
    assert (y = t) by (apply (ids_unique_inj s); assumption). subst y.
    pose proof (waitingQueue_NoDup s U) as ND.
    rewrite NoDup_nth_error in ND.
    assert (j = i); [|lia].
    apply ND; [apply nth_error_Some; congruence|congruence].
Qed.

(** X3.  In a store with pairwise distinct ids, the count shown for a
    queried ticket is 0 when the ticket is not waiting; a queried ticket
    that is waiting stands somewhere in the waiting queue, and when it
    stands at index [i] the count is [i], plus one when a ticket is in
    progress. *)
Theorem X3_ahead_count (s : list Ticket) (q : jsstring) (t : Ticket) :
  ids_unique s -> queriedTicket q s = Some t ->
  (status t <> waiting -> queriedAheadCount q s = Some 0) /\
  (status t = waiting -> exists i, nth_error (waitingQueue s) i = Some t) /\
  (forall i, nth_error (waitingQueue s) i = Some t ->
     queriedAheadCount q s =
     Some (Z.of_nat i + match inProgress s with Some _ => 1 | None => 0 end)).
Proof.
  intros U Hq. split; [|split].
  - intros W. unfold queriedAheadCount. rewrite Hq.
    destruct (status t); try reflexivity. congruence.
  - intros W. apply In_nth_error. apply sortWaitingQueue_In. split; [|exact W].
    unfold queriedTicket in Hq. destruct (str_truthy _); [|discriminate].
    apply find_some in Hq. apply Hq.
  - intros i. apply queriedAheadCount_at; assumption.
Qed.

(** With 001 in progress, one ticket is ahead of 002. *)
Lemma X3_ahead_count_witness :
  ids_unique (run sampleCalled []) /\
  queriedAheadCount (lit "002") (run sampleCalled []) = Some (0 + 1).
Proof.
  assert (U : ids_unique (run sampleCalled []))
    by (apply sample_ids_unique; reflexivity).
  split; [exact U|].
  destruct (X3_ahead_count (run sampleCalled []) (lit "002") _ U eq_refl)
    as (_ & _ & H).
  apply (H 0%nat). reflexivity.
Defined.

Lemma inProgress_app_waiting (s : list Ticket) (t : Ticket) :
  status t = waiting ->
  match inProgress (s ++ [t]) with Some _ => 1 | None => 0 end =
  match inProgress s with Some _ => 1 | None => 0 end.
Proof.
  intros W. unfold inProgress. induction s as [|x s IH]; simpl.
  - rewrite W. reflexivity.
  - destruct (Status_eqb (status x) in_progress); [reflexivity|exact IH].
Qed.

(** X4.  When a ticket is accepted into a reachable store, the number of
    people announced as ahead (the waiting tickets plus the one in
    progress) is an upper bound of what a query for the new number shows
    right afterwards: the new ticket is found, and its count is between 0
    and the announced one - a higher priority may put it further ahead. *)
Theorem X4_announced_ahead (form : ApplyForm) (uuid : jsstring) (now : Z)
    (s : list Ticket) :
  reachable s -> uuid_fresh (Create form uuid now) s = true ->
  valid_form form ->
  exists t k,
    createTicket form uuid now s = s ++ [t] /\
    number t = nextNumber s /\
    queriedTicket (nextNumber s) (createTicket form uuid now s) = Some t /\
    queriedAheadCount (nextNumber s) (createTicket form uuid now s) = Some k /\
    0 <= k <= createAhead s.
Proof.
  intros R F V.
  pose proof (reach_step (Create form uuid now) s R F) as R'. simpl in R'.
  pose proof (reachable_ids_unique _ R') as U'.
  pose proof (reachable_numbers_ok _ R') as N'.
  rewrite (createTicket_accept form uuid now s V) in *.
  set (t := {| id := uuid; number := nextNumber s |}) in *.
  assert (Hin : In t (s ++ [t])) by (apply in_elt).
  assert (Hq : queriedTicket (nextNumber s) (s ++ [t]) = Some t).
  { apply (queriedTicket_found _ t _ N' Hin).
    exists [], []. rewrite app_nil_r. repeat split. }
  destruct (In_nth_error (waitingQueue (s ++ [t])) t) as [i Hi].
  { apply sortWaitingQueue_In. split; [exact Hin|reflexivity]. }
  exists t. eexists. split; [reflexivity|]. split; [reflexivity|].
  split; [exact Hq|].
  split; [apply (queriedAheadCount_at _ _ t i U' Hq Hi)|].
  rewrite inProgress_app_waiting by reflexivity.
  assert (L : (i < length (waitingQueue (s ++ [t])))%nat).
  { apply nth_error_Some. congruence. }
  unfold waitingQueue in L.
  rewrite (Permutation_length (sortWaitingQueue_perm _)) in L.
  rewrite filter_app, length_app in L. simpl in L.
  unfold createAhead. fold is_waiting.
  destruct (inProgress s); lia.
Qed.

(** Taking a third ticket while one is waiting and one in progress. *)
Lemma X4_announced_ahead_witness :
  exists t k,
    createTicket sampleForm uuid3 5000 (run sampleCalled []) =
      run sampleCalled [] ++ [t] /\
    queriedAheadCount (lit "003")
      (createTicket sampleForm uuid3 5000 (run sampleCalled [])) = Some k /\
    0 <= k <= createAhead (run sampleCalled []).
Proof.
  assert (R : reachable (run sampleCalled [])).
  { apply reachable_run; [constructor|reflexivity]. }
  destruct (X4_announced_ahead sampleForm uuid3 5000 (run sampleCalled [])
              R eq_refl) as (t & k & H1 & _ & _ & H4 & H5).
  { split; discriminate. }
  exists t, k. split; [exact H1|]. split; [exact H4|exact H5].
Defined.

(** ** Messages and buttons *)

Lemma app_snoc_neq {A : Type} (l : list A) (a : A) : l ++ [a] <> l.
Proof.
  intros H. apply (f_equal (@length A)) in H.
  rewrite length_app in H. simpl in H. lia.
Qed.

Lemma startsWith_app (p r : jsstring) : startsWith (p ++ r) p = true.
Proof.
  induction p as [|c p IH]; simpl; [reflexivity|].
  rewrite N.eqb_refl. exact IH.
Qed.

(** X5.  The message left by [createTicket] starts with the confirmation
    prefix exactly when the form passes the check, which is exactly when
    the store gets a new ticket; the confirmation then goes on with the
    number the new ticket carries, and a rejected form leaves the store
    as it was. *)
Theorem X5_message_tells_outcome (form : ApplyForm) (uuid : jsstring)
    (now : Z) (s : list Ticket) :
  (startsWith (createTicketMsg form s) successPrefix = true <->
   valid_form form) /\
  (valid_form form <-> createTicket form uuid now s <> s) /\
  (valid_form form ->
   exists t, createTicket form uuid now s = s ++ [t] /\
             startsWith (createTicketMsg form s)
               (successPrefix ++ [65292; 20320; 30340; 21495; 30721;
                                  26159; 32]%N ++ number t) = true).
Proof.
  unfold valid_form, createTicketMsg.
  destruct (createTicket_cases form uuid now s) as [[H E]|(Hn & Hd & E)].
  - rewrite E.
    assert (T : negb (str_truthy (trim (applyName form)))
                || negb (str_truthy (trim (applyDesc form))) = true).
    { destruct H as [-> | ->]; simpl; [reflexivity|apply orb_true_r]. }
    rewrite T. simpl.
    split; [split; [discriminate|tauto]|].
    split; [split; [tauto|congruence]|tauto].
  - rewrite E.
    assert (T : negb (str_truthy (trim (applyName form)))
                || negb (str_truthy (trim (applyDesc form))) = false).
    { destruct (trim (applyName form)); [congruence|].
      destruct (trim (applyDesc form)); [congruence|]. reflexivity. }
    rewrite T.
    split; [split; [tauto|reflexivity]|].
    split; [split; [intros _; apply app_snoc_neq|tauto]|].
    intros _. eexists. split; [reflexivity|]. simpl number.
    apply (startsWith_app
             (successPrefix ++ [65292; 20320; 30340; 21495; 30721;
                                26159; 32]%N ++ nextNumber s)).
Qed.

(** The sample form is confirmed; its ticket is appended. *)
Lemma X5_message_tells_outcome_witness :
  valid_form sampleForm /\
  createTicket sampleForm uuid1 1000 [] <> [].
Proof.
  assert (V : valid_form sampleForm) by (split; discriminate).
  split; [exact V|].
  apply (X5_message_tells_outcome sampleForm uuid1 1000 []). exact V.
Defined.

Lemma started_neq (now : Z) (t : Ticket) :
  status t = waiting -> started now t <> t.
Proof.
  intros W E. apply (f_equal status) in E. simpl in E. congruence.
Qed.

Lemma replaced_eq {A : Type} (l1 l2 : list A) (a b : A) :
  l1 ++ a :: l2 = l1 ++ b :: l2 -> a = b.
Proof. intros H. apply app_inv_head in H. congruence. Qed.

(** X6.  In a store with pairwise distinct ids the call-next button is
    disabled exactly when [callNext] would return the store unchanged:
    when a ticket is in progress or nobody waits. *)
Theorem X6_call_next_button (now : Z) (s : list Ticket) :
  ids_unique s ->
  (callNextDisabled s = true <-> callNext now s = s) /\
  (callNextDisabled s = true <->
   inProgress s <> None \/ waitingQueue s = []).
Proof.
  intros U.
  assert (D : callNextDisabled s = true <->
              inProgress s <> None \/ waitingQueue s = []).
  { unfold callNextDisabled.
    destruct (inProgress s); simpl.
    - split; [left; discriminate|reflexivity].
    - destruct (waitingQueue s); simpl.
      + split; [right; reflexivity|reflexivity].
      + split; [discriminate|intros [H|H]; congruence]. }
  split; [|exact D]. rewrite D. split; [apply callNext_noop|].
  intros E.
  destruct (inProgress s) as [c|] eqn:Hp; [left; discriminate|].
  destruct (waitingQueue s) as [|next rest] eqn:Hq; [right; reflexivity|].
  exfalso.
  destruct (callNext_frame now s next rest U Hp Hq) as (l1 & l2 & E1 & E2).
  rewrite E in E2. rewrite E1 in E2 at 1. apply replaced_eq in E2.
  symmetry in E2. revert E2. apply started_neq.
  apply (sortWaitingQueue_In s next). unfold waitingQueue in Hq.
  rewrite Hq. left. reflexivity.
Qed.

(** With 001 in progress the button is disabled and calling does nothing. *)
Lemma X6_call_next_button_witness :
  ids_unique (run sampleCalled []) /\
  callNextDisabled (run sampleCalled []) = true /\
  callNext 5000 (run sampleCalled []) = run sampleCalled [].
Proof.
  assert (U : ids_unique (run sampleCalled []))
    by (apply sample_ids_unique; reflexivity).
  split; [exact U|]. split; [reflexivity|].
  apply (X6_call_next_button 5000 (run sampleCalled []) U). reflexivity.
Defined.

Lemma bump_thrice (i : jsstring) (t : Ticket) :
  let g := fun t => if str_eqb (id t) i
                    then withPriority (nextPriority (priority t)) t else t in
  g (g (g t)) = g (g t).
Proof.
  simpl. destruct (str_eqb (id t) i) eqn:E; simpl; rewrite ?E; simpl;
    rewrite ?E; [|reflexivity].
  unfold withPriority. simpl. destruct (priority t); reflexivity.
Qed.

(** X7.  [bumpPriority] with an id no ticket carries returns the store
    unchanged, and after two bumps of an id a third one changes nothing.
    In a store with pairwise distinct ids, a row's bump button is disabled
    (priority high) exactly when bumping that ticket would return the
    store unchanged. *)
Theorem X7_bump_saturates (i : jsstring) (s : list Ticket) (t : Ticket) :
  (~ In i (map id s) -> bumpPriority i s = s) /\
  bumpPriority i (bumpPriority i (bumpPriority i s)) =
    bumpPriority i (bumpPriority i s) /\
  (ids_unique s -> In t s ->
   (bumpDisabled t = true <-> bumpPriority (id t) s = s)).
Proof.
  split; [|split].
  - intros H. rewrite bumpPriority_eq. apply (map_upd_absent i). exact H.
  - rewrite !bumpPriority_eq, !map_map. apply map_ext. intros x.
    apply (bump_thrice i x).
  - intros U Hin. destruct (in_split _ _ Hin) as (l1 & l2 & E).
    rewrite bumpPriority_eq. rewrite E in U |- *.
    rewrite (map_upd_unique (id t)
               (fun t => withPriority (nextPriority (priority t)) t)
               l1 l2 t U eq_refl).
    unfold bumpDisabled. split.
    + intros H. destruct t as [? ? ? ? p ? ? ? ? ? ?]. simpl in *.
      destruct p; try discriminate. reflexivity.
    + intros H. apply replaced_eq in H.
      apply (f_equal priority) in H. simpl in H.
      destruct (priority t); try discriminate. reflexivity.
Qed.

(** Ticket 002 has priority medium: bumping it changes the store. *)
Lemma X7_bump_saturates_witness :
  ids_unique (run sampleTaken []) /\
  bumpPriority uuid2 (run sampleTaken []) <> run sampleTaken [].
Proof.
  assert (U : ids_unique (run sampleTaken []))
    by (apply sample_ids_unique; reflexivity).
  split; [exact U|].
  destruct (X7_bump_saturates uuid2 (run sampleTaken [])
              (nth 1 (run sampleTaken []) ticketA)) as (_ & _ & H).
  intros E. apply H in E; [discriminate E|exact U|].
  right. left. reflexivity.
Defined.

(** ** The queue across operations *)

Lemma filter_replace_out {A : Type} (p : A -> bool) (l1 l2 : list A)
    (a b : A) :
  p a = false -> p b = false ->
  filter p (l1 ++ a :: l2) = filter p (l1 ++ b :: l2).
Proof.
  intros Ha Hb. rewrite !filter_app. simpl. rewrite Ha, Hb. reflexivity.
Qed.

Lemma waitingQueue_replace_out (l1 l2 : list Ticket) (a b : Ticket) :
  status a <> waiting -> status b <> waiting ->
  waitingQueue (l1 ++ a :: l2) = waitingQueue (l1 ++ b :: l2).
Proof.
  intros Ha Hb. unfold waitingQueue, sortWaitingQueue. f_equal.
  apply (filter_replace_out is_waiting).
  - unfold is_waiting. destruct (status a); try reflexivity. congruence.
  - unfold is_waiting. destruct (status b); try reflexivity. congruence.
Qed.

Lemma inProgress_replaced_none (l1 l2 : list Ticket) (c c' : Ticket) :
  (length (filter is_in_progress (l1 ++ c :: l2)) <= 1)%nat ->
  status c = in_progress -> status c' <> in_progress ->
  inProgress (l1 ++ c' :: l2) = None.
Proof.
  intros C W W'. apply (filter_nil_find is_in_progress).
  rewrite filter_app in C. cbn [filter] in C.
  unfold is_in_progress at 2 in C. rewrite W in C. cbn [Status_eqb] in C.
  rewrite length_app in C. cbn [length] in C.
  rewrite filter_app. cbn [filter]. unfold is_in_progress at 2.
  destruct (status c'); try congruence; cbn [Status_eqb];
    (destruct (filter is_in_progress l1); [|simpl in C; lia]);
    (destruct (filter is_in_progress l2); [reflexivity|simpl in C; lia]).
Qed.

Lemma inProgress_replaced_some (l1 l2 : list Ticket) (c c' : Ticket) :
  inProgress (l1 ++ c :: l2) = None -> status c' = in_progress ->
  inProgress (l1 ++ c' :: l2) = Some c'.
Proof.
  intros H W. apply inProgress_None in H.
  rewrite filter_app in H. apply app_eq_nil in H as [H _].
  unfold inProgress. induction l1 as [|x l1 IH]; simpl.
  - rewrite W. reflexivity.
  - simpl in H. unfold is_in_progress at 1 in H.
    destruct (Status_eqb (status x) in_progress); [discriminate|].
    apply IH. exact H.
Qed.

Lemma waitingQueue_after_call (l1 l2 rest : list Ticket) (next c' : Ticket) :
  ids_unique (l1 ++ next :: l2) ->
  waitingQueue (l1 ++ next :: l2) = next :: rest ->
  status c' <> waiting ->
  waitingQueue (l1 ++ c' :: l2) = rest.
Proof.
  intros U Hq W'.
  assert (Wn : status next = waiting).
  { apply (sortWaitingQueue_In (l1 ++ next :: l2) next).
    unfold waitingQueue in Hq. rewrite Hq. left. reflexivity. }
  assert (Hout : ~ In next l1).
  { unfold ids_unique in U. rewrite map_app in U. simpl in U.
    apply NoDup_remove_2 in U. intros H. apply U, in_or_app. left.
    apply in_map. exact H. }
  pose proof (sortWaitingQueue_sorted (l1 ++ next :: l2)) as S.
  unfold waitingQueue in *. rewrite Hq in S.
  apply StronglySorted_inv in S as [S _].
  symmetry. apply sorted_blocks_unique;
    [exact S|apply sortWaitingQueue_sorted|].
  intros k. rewrite sortWaitingQueue_stable.
  pose proof (sortWaitingQueue_stable (l1 ++ next :: l2) k) as St.
  rewrite Hq in St. rewrite !filter_app in *. cbn [filter] in *.
  unfold is_waiting at 2. unfold is_waiting at 2 in St.
  rewrite Wn in St. cbn [Status_eqb filter] in St.
  replace (Status_eqb (status c') waiting) with false
    by (destruct (status c'); try reflexivity; congruence).
  destruct (sameKey k next) eqn:K; [|exact St].
  destruct (filter (sameKey k) (filter is_waiting l1)) as [|y ys] eqn:E1.
  - simpl in St |- *. congruence.
  - simpl in St. injection St as <- _. exfalso. apply Hout.
    assert (H : In next (filter (sameKey k) (filter is_waiting l1))).
    { rewrite E1. left. reflexivity. }
    apply filter_In in H as [H _]. apply filter_In in H as [H _]. exact H.
Qed.

Lemma callNext_advances (now : Z) (s rest : list Ticket) (next : Ticket) :
  ids_unique s -> inProgress s = None -> waitingQueue s = next :: rest ->
  exists l1 l2,
    s = l1 ++ next :: l2 /\
    callNext now s = l1 ++ started now next :: l2 /\
    inProgress (l1 ++ started now next :: l2) = Some (started now next) /\
    waitingQueue (l1 ++ started now next :: l2) = rest.
Proof.
  intros U Hp Hq.
  destruct (callNext_frame now s next rest U Hp Hq) as (l1 & l2 & E & E').
  exists l1, l2. split; [exact E|]. split; [exact E'|]. subst s. split.
  - apply (inProgress_replaced_some l1 l2 next); [exact Hp|reflexivity].
  - apply (waitingQueue_after_call l1 l2 rest next); try assumption.
    discriminate.
Qed.

(** X8.  In a store with pairwise distinct ids, no ticket in progress and
    the waiting queue [next :: rest], after call-next the ticket in
    progress is [next] (started now) and the waiting queue is exactly
    [rest], in the same order. *)
Theorem X8_call_next_advances (now : Z) (s rest : list Ticket)
    (next : Ticket) :
  ids_unique s -> inProgress s = None -> waitingQueue s = next :: rest ->
  inProgress (callNext now s) = Some (started now next) /\
  waitingQueue (callNext now s) = rest.
Proof.
  intros U Hp Hq.
  destruct (callNext_advances now s rest next U Hp Hq)
    as (l1 & l2 & _ & -> & P & Q).
  split; assumption.
Qed.

(** Two tickets taken: calling leaves 002 alone in the queue. *)
Lemma X8_call_next_advances_witness :
  ids_unique (run sampleTaken []) /\
  exists t, waitingQueue (callNext 3000 (run sampleTaken [])) = [t] /\
            number t = lit "002".
Proof.
  assert (U : ids_unique (run sampleTaken []))
    by (apply sample_ids_unique; reflexivity).
  split; [exact U|].
  exists (nth 1 (run sampleTaken []) ticketA). split; [|reflexivity].
  apply (X8_call_next_advances 3000 (run sampleTaken [])
           [nth 1 (run sampleTaken []) ticketA]
           (nth 0 (run sampleTaken []) ticketA) U); reflexivity.
Defined.

(** X9.  In a reachable store with a ticket in progress, skip replaces
    exactly that ticket, in place, by the same record with status skipped;
    afterwards no ticket is in progress and the waiting queue is what it
    was.  Complete leaves the waiting queue untouched as well, and with no
    ticket in progress skip returns the store unchanged. *)
Theorem X9_skip (draft : jsstring) (now : Z) (s : list Ticket) :
  reachable s ->
  (forall cur,
     inProgress s = Some cur ->
     one_record_changed cur (passed cur) s (markSkipped s) /\
     inProgress (markSkipped s) = None /\
     waitingQueue (markSkipped s) = waitingQueue s /\
     waitingQueue (markDone draft now s) = waitingQueue s) /\
  (inProgress s = None -> markSkipped s = s).
Proof.
  intros R. pose proof (reachable_ids_unique s R) as U.
  pose proof (reachable_one_in_progress s R) as C.
  split; [|apply markSkipped_noop].
  intros cur Hp. destruct (inProgress_Some s cur Hp) as [_ W].
  destruct (markSkipped_frame s cur U Hp) as (l1 & l2 & E & E').
  destruct (markDone_frame draft now s cur U Hp) as (m1 & m2 & F & F').
  split; [exists l1, l2; split; assumption|].
  rewrite E', F'. rewrite F at 2. rewrite E in C |- *.
  split; [|split].
  - apply (inProgress_replaced_none l1 l2 cur); [exact C|exact W|].
    discriminate.
  - apply waitingQueue_replace_out; [discriminate|congruence].
  - apply waitingQueue_replace_out; [discriminate|congruence].
Qed.

(** Skipping ticket 001 of the sample run frees the desk. *)
Lemma X9_skip_witness :
  reachable (run sampleCalled []) /\
  inProgress (markSkipped (run sampleCalled [])) = None.
Proof.
  assert (R : reachable (run sampleCalled [])).
  { apply reachable_run; [constructor|reflexivity]. }
  split; [exact R|].
  destruct (X9_skip [] 0 (run sampleCalled []) R) as [H _].
  eapply H. reflexivity.
Defined.

Lemma markDone_at (draft : jsstring) (now : Z) (l1 l2 : list Ticket)
    (c : Ticket) :
  ids_unique (l1 ++ c :: l2) -> inProgress (l1 ++ c :: l2) = Some c ->
  markDone draft now (l1 ++ c :: l2) =
  l1 ++ completed (trim draft) now c :: l2.
Proof.
  intros U P. unfold markDone. rewrite P.
  apply (map_upd_unique (id c) (completed (trim draft) now));
    [exact U|reflexivity].
Qed.

(** X10.  Serving the head of the queue: in a store with pairwise distinct
    ids, no ticket in progress and the waiting queue [next :: rest],
    call-next followed by complete replaces exactly [next], in place, by
    the record that is done, started at the first time and completed at
    the second with the trimmed note; nobody is in progress afterwards and
    the waiting queue is [rest]. *)
Theorem X10_serve_head (n1 n2 : Z) (draft : jsstring) (s rest : list Ticket)
    (next : Ticket) :
  ids_unique s -> inProgress s = None -> waitingQueue s = next :: rest ->
  one_record_changed next (completed (trim draft) n2 (started n1 next))
    s (run [CallNext n1; Complete draft n2] s) /\
  inProgress (run [CallNext n1; Complete draft n2] s) = None /\
  waitingQueue (run [CallNext n1; Complete draft n2] s) = rest.
Proof.
  intros U Hp Hq. unfold run. cbn [fold_left step].
  destruct (callNext_advances n1 s rest next U Hp Hq)
    as (l1 & l2 & E & E' & P & Q).
  rewrite E'.
  assert (U' : ids_unique (l1 ++ started n1 next :: l2)).
  { rewrite <- E'. apply (step_ids_unique (CallNext n1) s U eq_refl). }
  rewrite (markDone_at draft n2 l1 l2 _ U' P).
  split; [exists l1, l2; split; [exact E|reflexivity]|].
  split.
  - apply (inProgress_replaced_none l1 l2 (started n1 next));
      [|reflexivity|discriminate].
    rewrite E in Hp. apply inProgress_None in Hp.
    rewrite filter_app in Hp. cbn [filter] in Hp.
    apply app_eq_nil in Hp as [H1 H2].
    destruct (is_in_progress next); [discriminate|].
    rewrite filter_app. cbn [filter].
    change (is_in_progress (started n1 next)) with true.
    rewrite H1, H2. simpl. lia.
  - rewrite <- Q. apply waitingQueue_replace_out; discriminate.
Qed.

(** Two tickets taken: serving the first one leaves 002 waiting. *)
Lemma X10_serve_head_witness :
  ids_unique (run sampleTaken []) /\
  inProgress (run [CallNext 3000; Complete (lit " ok ") 4000]
                (run sampleTaken [])) = None.
Proof.
  assert (U : ids_unique (run sampleTaken []))
    by (apply sample_ids_unique; reflexivity).
  split; [exact U|].
  apply (X10_serve_head 3000 4000 (lit " ok ") (run sampleTaken [])
           [nth 1 (run sampleTaken []) ticketA]
           (nth 0 (run sampleTaken []) ticketA) U); reflexivity.
Defined.

(** ** One ticket through the operations *)

Lemma step_at (o : Op) (s : list Ticket) (i : nat) (t : Ticket) :
  ids_unique s -> is_reset o = false -> nth_error s i = Some t ->
  exists t', nth_error (step o s) i = Some t' /\ (t' = t \/ transition o t t').
Proof.
  intros U Er Hn. destruct (is_create o) eqn:Ec.
  - destruct o as [f u n| | | | |]; try discriminate. simpl.
    exists t. split; [|left; reflexivity].
    destruct (createTicket_cases f u n s) as [[_ ->]|(_ & _ & ->)];
      [exact Hn|].
    rewrite nth_error_app1; [exact Hn|].
    apply nth_error_Some. congruence.
  - destruct (step_transition o s U Ec Er)
      as [->|(x & x' & Tr & l1 & l2 & E & ->)].
    { exists t. split; [exact Hn|left; reflexivity]. }
    rewrite E in Hn.
    destruct (nth_error_replace _ _ _ x' _ _ Hn) as [[-> ->]|H].
    + exists x'. split; [apply nth_error_replaced|right; exact Tr].
    + exists t. split; [exact H|left; reflexivity].
Qed.

Lemma nextPriority_rank (p : Priority) :
  priorityRank p <= priorityRank (nextPriority p).
Proof. destruct p; cbv; congruence. Qed.

(** X11.  In a store with pairwise distinct ids, every operation but
    reset keeps each ticket at its index; the ticket's id, number, name,
    description, estimate and creation time stay the same, its priority
    rank never goes down, and its status stays or moves one step along
    waiting -> in_progress -> done or skipped. *)
Theorem X11_ticket_lifecycle (o : Op) (s : list Ticket) (i : nat)
    (t : Ticket) :
  ids_unique s -> is_reset o = false -> nth_error s i = Some t ->
  exists t',
    nth_error (step o s) i = Some t' /\
    (id t' = id t /\ number t' = number t /\ name t' = name t /\
     desc t' = desc t /\ etaMinutes t' = etaMinutes t /\
     createdAt t' = createdAt t) /\
    priorityRank (priority t) <= priorityRank (priority t') /\
    (status t' = status t \/
     status t = waiting /\ status t' = in_progress \/
     status t = in_progress /\ (status t' = done \/ status t' = skipped)).
Proof.
  intros U Er Hn.
  destruct (step_at o s i t U Er Hn) as (t' & Hn' & [->|Tr]).
  - exists t. split; [exact Hn'|]. split; [tauto|]. split; [lia|tauto].
  - exists t'. split; [exact Hn'|].
    destruct Tr as [n x W|d n x W|x W|x]; simpl;
      (split; [tauto|]); (split; [try lia|tauto]).
    apply nextPriority_rank.
Qed.

(** Calling the next ticket moves 001 from waiting to in_progress. *)
Lemma X11_ticket_lifecycle_witness :
  ids_unique (run sampleTaken []) /\
  exists t', nth_error (step (CallNext 3000) (run sampleTaken [])) 0
             = Some t' /\ number t' = lit "001".
Proof.
  assert (U : ids_unique (run sampleTaken []))
    by (apply sample_ids_unique; reflexivity).
  split; [exact U|].
  destruct (X11_ticket_lifecycle (CallNext 3000) (run sampleTaken []) 0%nat
              _ U eq_refl eq_refl) as (t' & H1 & (_ & H2 & _) & _).
  exists t'. split; [exact H1|exact H2].
Defined.

(** X12.  In a reachable store the status tells which fields are set: a
    ticket has a startedAt exactly when it is not waiting, and a doneAt,
    and a result, exactly when it is done.  Every operation but reset
    keeps a startedAt, a doneAt and the result of a completed ticket once
    they are set. *)
Theorem X12_timestamps_set_once (o : Op) (s : list Ticket) (i : nat)
    (t : Ticket) :
  reachable s -> is_reset o = false -> nth_error s i = Some t ->
  (startedAt t = None <-> status t = waiting) /\
  (doneAt t <> None <-> status t = done) /\
  (result t <> None <-> status t = done) /\
  exists t',
    nth_error (step o s) i = Some t' /\
    (forall b, startedAt t = Some b -> startedAt t' = Some b) /\
    (forall d, doneAt t = Some d ->
               doneAt t' = Some d /\ result t' = result t).
Proof.
  intros R Er Hn. pose proof (reachable_ids_unique s R) as U.
  assert (L : lifecycle_ok t).
  { pose proof (reachable_lifecycle s R) as F. rewrite Forall_forall in F.
    apply F. eapply nth_error_In. exact Hn. }
  unfold lifecycle_ok in L.
  split; [destruct (status t); intuition congruence|].
  split; [destruct (status t); intuition congruence|].
  split; [destruct (status t); intuition congruence|].
  destruct (step_at o s i t U Er Hn) as (t' & Hn' & [->|Tr]).
  - exists t. split; [exact Hn'|]. split; auto.
  - exists t'. split; [exact Hn'|].
    destruct Tr as [n x W|d n x W|x W|x]; simpl; try rewrite W in L;
      split; intros; try split; intuition congruence.
Qed.

(** Completing the ticket in progress keeps its startedAt. *)
Lemma X12_timestamps_set_once_witness :
  reachable (run sampleCalled []) /\
  exists t',
    nth_error (step (Complete [] 4000) (run sampleCalled [])) 0 = Some t' /\
    startedAt t' = Some 3000.
Proof.
  assert (R : reachable (run sampleCalled [])).
  { apply reachable_run; [constructor|reflexivity]. }
  split; [exact R|].
  destruct (X12_timestamps_set_once (Complete [] 4000) (run sampleCalled [])
              0%nat _ R eq_refl eq_refl) as (_ & _ & _ & t' & H1 & H2 & _).
  exists t'. split; [exact H1|]. apply H2. reflexivity.
Defined.

(** ** Durations and statistics *)

Lemma div_bounds (x d : Z) : 0 < d -> d * (x / d) <= x < d * (x / d + 1).
Proof.
  intros H. pose proof (Z.div_mod x d ltac:(lia)) as D.
  pose proof (Z.mod_pos_bound x d H) as M.
  generalize dependent (x / d). generalize dependent (x mod d).
  intros m M q D. nia.
Qed.

Lemma minutesBetween_div (a b : Z) :
  minutesBetween a b = Z.max 0 ((2 * (b - a) + 60000) / 120000).
Proof.
  unfold minutesBetween. rewrite Math_round_div by lia. reflexivity.
Qed.

(** X13.  [minutesBetween] is never negative, grows with the later time
    and shrinks with the earlier one, is exact on whole minutes, and is 0
    exactly when the later time is less than half a minute past the
    earlier one (in particular when it lies before it). *)
Theorem X13_minutes_between (a b b' k : Z) :
  0 <= minutesBetween a b /\
  (b <= b' -> minutesBetween a b <= minutesBetween a b' /\
              minutesBetween b' a <= minutesBetween b a) /\
  (0 <= k -> minutesBetween a (a + 60000 * k) = k) /\
  (minutesBetween a b = 0 <-> b - a < 30000).
Proof.
  rewrite !minutesBetween_div.
  pose proof (div_bounds (2 * (b - a) + 60000) 120000 ltac:(lia)) as B1.
  split; [lia|]. split; [|split].
  - intros H.
    pose proof (div_bounds (2 * (b' - a) + 60000) 120000 ltac:(lia)) as B2.
    pose proof (div_bounds (2 * (a - b') + 60000) 120000 ltac:(lia)) as B3.
    pose proof (div_bounds (2 * (a - b) + 60000) 120000 ltac:(lia)) as B4.
    lia.
  - intros H.
    pose proof (div_bounds (2 * (a + 60000 * k - a) + 60000) 120000
                  ltac:(lia)) as B2.
    lia.
  - lia.
Qed.

(** A wait of ninety seconds counts as two minutes. *)
Lemma X13_minutes_between_witness :
  minutesBetween 0 (0 + 60000 * 2) = 2 /\ minutesBetween 0 90000 <= 2.
Proof.
  destruct (X13_minutes_between 0 90000 (0 + 60000 * 2) 2)
    as (_ & H2 & H3 & _).
  specialize (H3 ltac:(lia)). destruct (H2 ltac:(lia)) as [H2a _].
  split; [exact H3|]. rewrite H3 in H2a. exact H2a.
Defined.

Lemma sumZ_bounds {A : Type} (f : A -> Z) (l : list A) (M : Z) :
  (forall x, In x l -> 0 <= f x <= M) ->
  0 <= sumZ (map f l) <= Z.of_nat (length l) * M.
Proof.
  induction l as [|x l IH]; intros H; [simpl; lia|].
  pose proof (H x (or_introl eq_refl)).
  specialize (IH (fun y Hy => H y (or_intror Hy))).
  cbn [map length]. unfold sumZ in *. cbn [fold_right].
  rewrite Nat2Z.inj_succ. nia.
Qed.

Lemma nearest_bounds (sum n r M : Z) :
  0 < n -> 0 <= sum <= n * M -> nearest_to sum n r -> 0 <= r <= M.
Proof. unfold nearest_to. intros Hn Hs H. nia. Qed.

Lemma waitMinutes_nonneg (x : Ticket) : 0 <= waitMinutes x.
Proof.
  unfold waitMinutes. destruct (startedAt x); [|lia].
  unfold minutesBetween. lia.
Qed.

Lemma handleMinutes_nonneg (x : Ticket) : 0 <= handleMinutes x.
Proof.
  unfold handleMinutes. destruct (startedAt x), (doneAt x); try lia.
  unfold minutesBetween. lia.
Qed.

Section StatisticsBounds.
Variable tz : LocalTime.

Lemma isSameLocalDay_sym (a b : Z) :
  isSameLocalDay tz a b = isSameLocalDay tz b a.
Proof.
  unfold isSameLocalDay.
  rewrite (Z.eqb_sym (getFullYear tz a)), (Z.eqb_sym (getMonth tz a)),
    (Z.eqb_sym (getDate tz a)). reflexivity.
Qed.

Lemma isSameLocalDay_to (a b c : Z) :
  isSameLocalDay tz a b = true ->
  isSameLocalDay tz c a = isSameLocalDay tz c b.
Proof.
  unfold isSameLocalDay. rewrite !andb_true_iff, !Z.eqb_eq.
  intros [[-> ->] ->]. reflexivity.
Qed.

Lemma avg_wait_bounds (t : Z) (s : list Ticket) (M : Z) :
  0 <= M ->
  (forall x, In x (waitRows tz t s) -> waitMinutes x <= M) ->
  0 <= avgTodayWaitMinutes tz t s <= M.
Proof.
  intros HM H. destruct (waitRows tz t s) as [|x rows] eqn:E.
  - unfold avgTodayWaitMinutes. rewrite E. simpl. lia.
  - pose proof (avg_wait_nearest tz t s) as N. rewrite E in N.
    eapply nearest_bounds; [| |apply N; discriminate].
    + simpl length. lia.
    + apply sumZ_bounds. intros y Hy. split; [apply waitMinutes_nonneg|].
      apply H. exact Hy.
Qed.

Lemma avg_handle_bounds (t : Z) (s : list Ticket) (M : Z) :
  0 <= M ->
  (forall x, In x (handleRows tz t s) -> handleMinutes x <= M) ->
  0 <= avgTodayHandleMinutes tz t s <= M.
Proof.
  intros HM H. destruct (handleRows tz t s) as [|x rows] eqn:E.
  - unfold avgTodayHandleMinutes. rewrite E. simpl. lia.
  - pose proof (avg_handle_nearest tz t s) as N. rewrite E in N.
    eapply nearest_bounds; [| |apply N; discriminate].
    + simpl length. lia.
    + apply sumZ_bounds. intros y Hy. split; [apply handleMinutes_nonneg|].
      apply H. exact Hy.
Qed.

(** X14.  The two averages shown are never negative and never exceed the
    largest whole-minute duration among their rows; and in a reachable
    store the completed-today list holds done tickets only: a skipped
    ticket is never counted as completed. *)
Theorem X14_statistics_bounds (t : Z) (s : list Ticket) (M : Z) :
  0 <= M ->
  ((forall x, In x (waitRows tz t s) -> waitMinutes x <= M) ->
   0 <= avgTodayWaitMinutes tz t s <= M) /\
  ((forall x, In x (handleRows tz t s) -> handleMinutes x <= M) ->
   0 <= avgTodayHandleMinutes tz t s <= M) /\
  (reachable s ->
   forall x, In x (todayDone tz t s) -> status x = done) /\
  (length (todayDone tz t s) <= length s)%nat.
Proof.
  intros HM. split; [apply avg_wait_bounds, HM|].
  split; [apply avg_handle_bounds, HM|]. split.
  - intros R x Hx. apply todayDone_In in Hx as [Hin (d & Hd & _)].
    pose proof (reachable_lifecycle s R) as F. rewrite Forall_forall in F.
    specialize (F x Hin). unfold lifecycle_ok in F.
    destruct (status x); intuition congruence.
  - apply filter_length_le.
Qed.

(** X15.  Being on the same local day is symmetric and transitive, and the
    statistics depend on the current time through its local day only: two
    times of the same day give the same completed-today list and the same
    two averages. *)
Theorem X15_same_day (t t' : Z) (s : list Ticket) :
  isSameLocalDay tz t t = true /\
  isSameLocalDay tz t t' = isSameLocalDay tz t' t /\
  (isSameLocalDay tz t t' = true ->
   (forall c, isSameLocalDay tz c t = isSameLocalDay tz c t') /\
   todayDone tz t s = todayDone tz t' s /\
   avgTodayWaitMinutes tz t s = avgTodayWaitMinutes tz t' s /\
   avgTodayHandleMinutes tz t s = avgTodayHandleMinutes tz t' s).
Proof.
  split; [unfold isSameLocalDay; rewrite !Z.eqb_refl; reflexivity|].
  split; [apply isSameLocalDay_sym|].
  intros H. pose proof (fun c => isSameLocalDay_to t t' c H) as Hc.
  split; [exact Hc|].
  assert (E1 : todayDone tz t s = todayDone tz t' s).
  { unfold todayDone. apply filter_ext. intros x.
    destruct (doneAt x); [apply Hc|reflexivity]. }
  assert (E2 : waitRows tz t s = waitRows tz t' s).
  { unfold waitRows. apply filter_ext. intros x.
    destruct (startedAt x); [apply Hc|reflexivity]. }
  assert (E3 : handleRows tz t s = handleRows tz t' s).
  { unfold handleRows. apply filter_ext. intros x.
    destruct (startedAt x), (doneAt x); try reflexivity. apply Hc. }
  split; [exact E1|].
  unfold avgTodayWaitMinutes, avgTodayHandleMinutes.
  rewrite E2, E3. split; reflexivity.
Qed.
End StatisticsBounds.

(** On the sample day no average exceeds one minute. *)
Lemma X14_statistics_bounds_witness :
  0 <= avgTodayWaitMinutes utc1970 60000 (run sampleStats []) <= 1.
Proof.
  destruct (X14_statistics_bounds utc1970 60000 (run sampleStats []) 1)
    as (H & _); [lia|].
  apply H. intros x Hx. simpl in Hx.
  destruct Hx as [<-|[<-|[<-|[]]]]; vm_compute; discriminate.
Defined.

(** Ten seconds later on the same day the completed list is the same. *)
Lemma X15_same_day_witness :
  todayDone utc1970 60000 (run sampleStats []) =
  todayDone utc1970 70000 (run sampleStats []).
Proof.
  apply (X15_same_day utc1970 60000 70000 (run sampleStats [])).
  reflexivity.
Defined.

(** ** Numbers as text *)

Lemma parseInt_blank_app (pre x : jsstring) :
  forallb isWhiteSpace pre = true -> parseInt (pre ++ x) = parseInt x.
Proof.
  intros H. unfold parseInt. rewrite trimStart_blank_app by exact H.
  reflexivity.
Qed.

(** X16.  Padding and parsing are inverse on the numbers the store uses:
    for [n >= 0], [parseInt] reads [n] back from [pad3 n], also behind
    leading white space; [pad3 n] is made of digits only, so trimming
    leaves it alone; and different numbers have different texts. *)
Theorem X16_pad3_round_trip (n m : Z) (pre : jsstring) :
  0 <= n -> 0 <= m ->
  parseInt (pad3 n) = Some n /\
  (forallb isWhiteSpace pre = true -> parseInt (pre ++ pad3 n) = Some n) /\
  forallb isDigit (pad3 n) = true /\
  trim (pad3 n) = pad3 n /\
  (pad3 n = pad3 m -> n = m).
Proof.
  intros Hn Hm. pose proof (parseInt_pad3 n Hn) as P.
  split; [exact P|]. split.
  { intros H. rewrite parseInt_blank_app by exact H. exact P. }
  split; [apply pad3_digits, Hn|].
  split; [apply pad3_trim, Hn|].
  intros E. rewrite E, parseInt_pad3 in P by exact Hm. congruence.
Qed.

(** Ticket number 42. *)
Lemma X16_pad3_round_trip_witness :
  pad3 42 = lit "042" /\ parseInt (lit "  042") = Some 42.
Proof.
  split; [reflexivity|].
  apply (X16_pad3_round_trip 42 42 (lit "  ")); try lia. reflexivity.
Defined.

(** ** Elapsed time as text *)

Lemma Math_floor_div (a b : Z) :
  0 < b -> Math_floor (inject_Z a / inject_Z b) = a / b.
Proof.
  intros H. destruct b as [|p|p]; try lia.
  unfold Math_floor, Qfloor, Qdiv, Qmult, Qinv, inject_Z.
  cbn [Qnum Qden]. f_equal; lia.
Qed.

Lemma digitPrefix_then (ds : jsstring) (c : N) (r : jsstring) :
  forallb isDigit ds = true -> isDigit c = false ->
  digitPrefix (ds ++ c :: r) = map (fun c => Z.of_N (c - 48)) ds.
Proof.
  intros H Hc. induction ds as [|d ds IH]; simpl.
  - rewrite Hc. reflexivity.
  - simpl in H. apply andb_true_iff in H as [-> H].
    rewrite IH by exact H. reflexivity.
Qed.

Lemma parseInt_number_then (n : Z) (c : N) (r : jsstring) :
  0 <= n -> isDigit c = false ->
  parseInt (String_ n ++ c :: r) = Some n.
Proof.
  intros Hn Hc. unfold String_. destruct (Z.ltb_spec n 0); [lia|].
  unfold digitsOfN.
  pose proof (digitsFuel_digits (S (N.to_nat (Z.to_N n))) (Z.to_N n)) as D.
  pose proof (digitsFuel_value (S (N.to_nat (Z.to_N n))) (Z.to_N n)
                ltac:(lia)) as V.
  pose proof (digitsFuel_nonempty (N.to_nat (Z.to_N n)) (Z.to_N n)) as NE.
  pose proof (digitPrefix_then _ c r D Hc) as P.
  destruct (digitsFuel (S (N.to_nat (Z.to_N n))) (Z.to_N n)) as [|d ds];
    [congruence|].
  assert (E : parseInt ((d :: ds) ++ c :: r) =
              Some (1 * digitsValue (digitPrefix ((d :: ds) ++ c :: r)))).
  { simpl in D. apply andb_true_iff in D as [Hd _].
    apply isDigit_cases in Hd.
    repeat (destruct Hd as [->|Hd]; [reflexivity|]). subst d. reflexivity. }
  rewrite E, P, V. f_equal. lia.
Qed.

Lemma String_head_digit (n : Z) :
  0 <= n -> exists d r, String_ n = d :: r /\ isDigit d = true.
Proof.
  intros Hn. unfold String_. destruct (Z.ltb_spec n 0); [lia|].
  unfold digitsOfN.
  pose proof (digitsFuel_digits (S (N.to_nat (Z.to_N n))) (Z.to_N n)) as D.
  pose proof (digitsFuel_nonempty (N.to_nat (Z.to_N n)) (Z.to_N n)) as NE.
  destruct (digitsFuel (S (N.to_nat (Z.to_N n))) (Z.to_N n)) as [|d ds];
    [congruence|].
  simpl in D. apply andb_true_iff in D as [Hd _]. eauto.
Qed.

(** X17.  [formatDurationFrom] shows "just now" exactly when less than a
    minute has passed (also when the start lies in the future).  From one
    minute on the text starts with a count: the whole minutes elapsed
    below an hour, the whole hours from an hour on; and from an hour on
    the text is the hours followed, unless they are 0, by the remaining
    minutes, which are between 1 and 59. *)
Theorem X17_format_duration (ts now : Z) :
  (now - ts < 60000 <-> formatDurationFrom ts now = [21018; 21018]%N) /\
  (60000 <= now - ts < 3600000 ->
   formatDurationFrom ts now =
     String_ ((now - ts) / 60000) ++ [32; 20998; 38047]%N /\
   parseInt (formatDurationFrom ts now) = Some ((now - ts) / 60000)) /\
  (3600000 <= now - ts ->
   parseInt (formatDurationFrom ts now) = Some ((now - ts) / 3600000) /\
   exists h m,
     (now - ts) / 60000 = 60 * h + m /\ 1 <= h /\ 0 <= m < 60 /\
     formatDurationFrom ts now =
       if m =? 0 then String_ h ++ [32; 23567; 26102]%N
       else String_ h ++ [32; 23567; 26102; 32]%N
            ++ String_ m ++ [32; 20998; 38047]%N).
Proof.
  unfold formatDurationFrom.
  rewrite Math_floor_div by lia.
  pose proof (div_bounds (now - ts) 60000 ltac:(lia)) as B.
  set (q := (now - ts) / 60000) in *.
  assert (Hd : forall n suffix, 0 <= n ->
             String_ n ++ suffix <> [21018; 21018]%N).
  { intros n suffix Hn E.
    destruct (String_head_digit n Hn) as (d & r & Es & Hd).
    rewrite Es in E. injection E as -> _. discriminate Hd. }
  split; [|split].
  - split.
    + intros H. destruct (Z.ltb_spec (Z.max 0 q) 1); [reflexivity|lia].
    + intros H. destruct (Z.ltb_spec (Z.max 0 q) 1); [lia|].
      exfalso. revert H.
      destruct (Z.max 0 q <? 60); [apply Hd; lia|].
      rewrite Math_floor_div by lia.
      pose proof (div_bounds (Z.max 0 q) 60 ltac:(lia)).
      destruct (js_rem (Z.max 0 q) 60 =? 0); apply Hd; lia.
  - intros H. rewrite Z.max_r by lia.
    destruct (Z.ltb_spec q 1); [lia|].
    destruct (Z.ltb_spec q 60); [|lia].
    split; [reflexivity|]. apply parseInt_number_then; [lia|reflexivity].
  - intros H. rewrite Z.max_r by lia.
    destruct (Z.ltb_spec q 1); [lia|].
    destruct (Z.ltb_spec q 60); [lia|].
    rewrite Math_floor_div by lia.
    pose proof (div_bounds q 60 ltac:(lia)) as B'.
    assert (Eh : (now - ts) / 3600000 = q / 60).
    { unfold q. rewrite Z.div_div by lia. reflexivity. }
    assert (Em : js_rem q 60 = q mod 60).
    { unfold js_rem. apply Z.rem_mod_nonneg; lia. }
    pose proof (Z.div_mod q 60 ltac:(lia)) as DM.
    pose proof (Z.mod_pos_bound q 60 ltac:(lia)) as MB.
    rewrite Em, Eh. split.
    + destruct (q mod 60 =? 0);
        apply parseInt_number_then; try reflexivity; lia.
    + exists (q / 60), (q mod 60).
      split; [exact DM|]. split; [lia|]. split; [exact MB|reflexivity].
Qed.

(** Sixty-two minutes are shown as one hour and two minutes. *)
Lemma X17_format_duration_witness :
  parseInt (formatDurationFrom 0 3720000) = Some 1 /\
  formatDurationFrom 5000 0 = [21018; 21018]%N.
Proof.
  destruct (X17_format_duration 0 3720000) as (_ & _ & H).
  destruct (X17_format_duration 5000 0) as (H' & _).
  split; [apply H; lia|apply H'; lia].
Defined.

(** ** A new ticket in the queue *)

Lemma queueCompare_gt_strict (x y : Ticket) :
  0 < queueCompare x y -> ~ before x y.
Proof.
  unfold queueCompare, before.
  destruct (Z.eqb_spec
              (priorityRank (priority y) - priorityRank (priority x)) 0);
    simpl; lia.
Qed.

Lemma before_total (x y : Ticket) : before x y \/ before y x.
Proof. unfold before. lia. Qed.

Lemma sorted_split (t : Ticket) (q : list Ticket) :
  StronglySorted before q ->
  exists qa qb, q = qa ++ qb /\
    Forall (fun e => before e t) qa /\ Forall (fun e => ~ before e t) qb.
Proof.
  induction 1 as [|e q S (qa & qb & E & Fa & Fb) F].
  - exists [], []. repeat split; constructor.
  - destruct (Z.leb_spec (queueCompare e t) 0) as [C|C].
    + exists (e :: qa), qb. rewrite E. repeat split; [|exact Fb].
      constructor; [apply queueCompare_le, C|exact Fa].
    + exists [], (e :: q). repeat split; [constructor|].
      apply queueCompare_gt_strict in C.
      constructor; [exact C|].
      eapply Forall_impl; [|exact F]. intros e' He' Hb. apply C.
      eapply before_trans; eassumption.
Qed.

Lemma sorted_insert_mid (t : Ticket) (qa qb : list Ticket) :
  StronglySorted before (qa ++ qb) ->
  Forall (fun e => before e t) qa -> Forall (before t) qb ->
  StronglySorted before (qa ++ t :: qb).
Proof.
  induction qa as [|e qa IH]; simpl; intros S Fa Fb.
  - constructor; assumption.
  - apply StronglySorted_inv in S as [S F].
    apply Forall_cons_iff in Fa as [He Fa].
    constructor; [apply IH; assumption|].
    apply Forall_app in F as [F1 F2]. apply Forall_app. split; [exact F1|].
    constructor; [exact He|exact F2].
Qed.

Lemma filter_none {A : Type} (p : A -> bool) (l : list A) :
  (forall x, In x l -> p x = false) -> filter p l = [].
Proof.
  induction l as [|x l IH]; simpl; intros H; [reflexivity|].
  rewrite (H x) by (left; reflexivity). apply IH. auto.
Qed.

Lemma sameKey_before (k x y : Ticket) :
  sameKey k x = true -> sameKey k y = true -> before x y.
Proof.
  intros Hx Hy. apply queueCompare_le. eapply sameKey_block; eassumption.
Qed.

Lemma waitingQueue_after_create (s : list Ticket) (t : Ticket) :
  status t = waiting ->
  exists qa qb,
    waitingQueue s = qa ++ qb /\
    waitingQueue (s ++ [t]) = qa ++ t :: qb /\
    Forall (fun e => before e t) qa /\
    Forall (fun e => before t e /\ ~ before e t) qb.
Proof.
  intros W. pose proof (sortWaitingQueue_sorted s) as S.
  destruct (sorted_split t _ S) as (qa & qb & E & Fa & Fb).
  assert (Fb' : Forall (fun e => before t e /\ ~ before e t) qb).
  { eapply Forall_impl; [|exact Fb]. intros e He. cbv beta in He.
    destruct (before_total t e); tauto. }
  exists qa, qb. unfold waitingQueue. split; [exact E|].
  split; [|split; assumption]. symmetry.
  apply sorted_blocks_unique.
  - apply sorted_insert_mid; [rewrite <- E; exact S|exact Fa|].
    eapply Forall_impl; [|exact Fb']. intros e He. apply He.
  - apply sortWaitingQueue_sorted.
  - intros k. rewrite sortWaitingQueue_stable.
    pose proof (sortWaitingQueue_stable s k) as St. rewrite E in St.
    rewrite !filter_app in *. cbn [filter].
    unfold is_waiting at 2. rewrite W. cbn [Status_eqb filter].
    rewrite <- St. destruct (sameKey k t) eqn:K;
      [|rewrite app_nil_r; reflexivity].
    rewrite (filter_none (sameKey k) qb).
    + rewrite app_nil_r. reflexivity.
    + intros e He. destruct (sameKey k e) eqn:Ke; [|reflexivity].
      rewrite Forall_forall in Fb. exfalso. apply (Fb e He).
      eapply sameKey_before; eassumption.
Qed.

(** X18.  Taking a ticket never reorders the people already waiting: for
    an accepted form, in any store, the new waiting queue is the old one
    with the new ticket put in between - behind every waiting ticket that
    has a higher priority, or the same priority and no later creation
    time, and in front of all the others. *)
Theorem X18_create_enqueues (form : ApplyForm) (uuid : jsstring) (now : Z)
    (s : list Ticket) :
  valid_form form ->
  exists t qa qb,
    createTicket form uuid now s = s ++ [t] /\
    priority t = applyPriority form /\ createdAt t = now /\
    waitingQueue s = qa ++ qb /\
    waitingQueue (createTicket form uuid now s) = qa ++ t :: qb /\
    Forall (fun e => before e t) qa /\
    Forall (fun e => before t e /\ ~ before e t) qb.
Proof.
  intros V. rewrite (createTicket_accept form uuid now s V).
  eexists.
  destruct (waitingQueue_after_create s
              {| id := uuid; number := nextNumber s;
                 name := trim (applyName form);
                 desc := trim (applyDesc form);
                 priority := applyPriority form;
                 etaMinutes := normalizeEta (applyEta form);
                 status := waiting; createdAt := now;
                 startedAt := None; doneAt := None; result := None |}
              eq_refl) as (qa & qb & H).
  exists qa, qb. split; [reflexivity|]. split; [reflexivity|].
  split; [reflexivity|]. exact H.
Qed.

(** A third medium ticket is put into the sample queue. *)
Lemma X18_create_enqueues_witness :
  valid_form sampleForm /\
  exists t qa qb,
    waitingQueue (run sampleTaken []) = qa ++ qb /\
    waitingQueue (createTicket sampleForm uuid3 5000 (run sampleTaken []))
      = qa ++ t :: qb.
Proof.
  assert (V : valid_form sampleForm) by (split; discriminate).
  split; [exact V|].
  destruct (X18_create_enqueues sampleForm uuid3 5000 (run sampleTaken []) V)
    as (t & qa & qb & _ & _ & _ & H1 & H2 & _).
  exists t, qa, qb. split; assumption.
Defined.

(** ** Who is called *)

Lemma before_refl (x : Ticket) : before x x.
Proof. unfold before. lia. Qed.

(** X19.  The ticket call-next puts in progress is one that no waiting
    ticket should precede: every waiting ticket of the store has a lower
    priority, or the same priority and no earlier creation time; and in a
    store with pairwise distinct ids no waiting ticket of the very same
    priority and creation time is stored in front of it. *)
Theorem X19_call_next_choice (s rest : list Ticket) (next : Ticket) :
  waitingQueue s = next :: rest ->
  (forall w, In w s -> status w = waiting -> before next w) /\
  (ids_unique s ->
   exists l1 l2, s = l1 ++ next :: l2 /\
     forall w, In w l1 -> status w = waiting -> sameKey next w = false).
Proof.
  intros Hq. unfold waitingQueue in Hq. split.
  - intros w Hin W.
    assert (Hw : In w (sortWaitingQueue s))
      by (apply sortWaitingQueue_In; auto).
    pose proof (sortWaitingQueue_sorted s) as S. rewrite Hq in S, Hw.
    apply StronglySorted_inv in S as [_ F]. rewrite Forall_forall in F.
    destruct Hw as [<-|Hw]; [apply before_refl|apply F, Hw].
  - intros U.
    assert (Hn : In next s /\ status next = waiting).
    { apply sortWaitingQueue_In. rewrite Hq. left. reflexivity. }
    destruct Hn as [Hin Wn].
    destruct (in_split _ _ Hin) as (l1 & l2 & E).
    exists l1, l2. split; [exact E|]. intros w Hw W.
    destruct (sameKey next w) eqn:K; [|reflexivity]. exfalso.
    assert (Hout : ~ In next l1).
    { rewrite E in U. unfold ids_unique in U. rewrite map_app in U.
      simpl in U. apply NoDup_remove_2 in U. intros H. apply U, in_or_app.
      left. apply in_map. exact H. }
    pose proof (sortWaitingQueue_stable s next) as St.
    rewrite Hq, E in St. rewrite !filter_app in St. cbn [filter] in St.
    rewrite sameKey_refl in St.
    assert (Hf : In w (filter (sameKey next) (filter is_waiting l1))).
    { apply filter_In. split; [|exact K]. apply filter_In.
      split; [exact Hw|]. apply Status_eqb_eq. exact W. }
    destruct (filter (sameKey next) (filter is_waiting l1)) as [|y ys] eqn:E1;
      [contradiction|].
    simpl in St. injection St as <- _. apply Hout.
    assert (H : In next (filter (sameKey next) (filter is_waiting l1))).
    { rewrite E1. left. reflexivity. }
    apply filter_In in H as [H _]. apply filter_In in H as [H _]. exact H.
Qed.

(** Of the three tickets of section 8, C is called before A and B. *)
Lemma X19_call_next_choice_witness :
  before ticketC ticketA /\ before ticketC ticketB.
Proof.
  destruct (X19_call_next_choice [ticketA; ticketB; ticketC]
              [ticketB; ticketA] ticketC eq_refl) as [H _].
  split; apply H; simpl; auto.
Defined.

(** ** Terminal tickets *)

Lemma offered_bump_waiting (i : jsstring) (s : list Ticket) :
  offered (Bump i) s = true ->
  exists w, In w s /\ status w = waiting /\ id w = i.
Proof.
  simpl. intros H. apply existsb_exists in H as (w & Hin & E).
  apply sortWaitingQueue_In in Hin as [Hin W].
  apply str_eqb_eq in E. eauto.
Qed.

Lemma terminal_kept (o : Op) (s : list Ticket) (i : nat) (t : Ticket) :
  ids_unique s -> is_reset o = false -> offered o s = true ->
  nth_error s i = Some t -> is_terminal t = true ->
  nth_error (step o s) i = Some t.
Proof.
  intros U Er Ho Hn Ht.
  destruct (terminal_frozen o s i t U Er Hn Ht) as (t' & Hn' & [->|[-> _]]);
    [exact Hn'|].
  exfalso. destruct (offered_bump_waiting _ _ Ho) as (w & Hw & W & E).
  assert (w = t).
  { apply (ids_unique_inj s); [exact U|exact Hw| |exact E].
    eapply nth_error_In. exact Hn. }
  subst w. unfold is_terminal in Ht. rewrite W in Ht. discriminate.
Qed.

(** C6.  Once a ticket is done or skipped, no sequence of operations the
    page can perform without reset - create, call-next, complete, skip,
    and bump-priority from a row of the waiting queue - ever changes a
    field of its record: in a store with pairwise distinct ids the record
    stays the same, at the same place, so no transition leads from done or
    skipped to another status.  A record is done only by complete, which
    sets its doneAt and its result at that very transition. *)
Theorem C6_terminal_never_changes (ops : list Op) (s : list Ticket) (i : nat)
    (t : Ticket) :
  ids_unique s -> offered_run ops s = true ->
  nth_error s i = Some t ->
  (is_terminal t = true -> nth_error (run ops s) i = Some t) /\
  (forall o t',
     is_reset o = false -> status t <> done ->
     nth_error (step o s) i = Some t' -> status t' = done ->
     exists draft now,
       o = Complete draft now /\ status t = in_progress /\
       t' = completed (trim draft) now t).
Proof.
  intros U Ho Hn. split.
  - intros Ht. revert s U Ho Hn.
    induction ops as [|o ops IH]; intros s U Ho Hn; [exact Hn|].
    simpl in Ho. apply andb_true_iff in Ho as [Ho Hr].
    apply andb_true_iff in Ho as [Ho Hoff].
    apply andb_true_iff in Ho as [Er Hf].
    apply negb_true_iff in Er.
    change (run (o :: ops) s) with (run ops (step o s)).
    apply IH; [apply step_ids_unique; assumption|exact Hr|].
    apply terminal_kept; assumption.
  - intros o t' Er Nd Hn' Hd.
    destruct (step_at o s i t U Er Hn) as (x & Hx & [->|Tr]).
    + rewrite Hx in Hn'. injection Hn' as <-. congruence.
    + rewrite Hx in Hn'. injection Hn' as <-.
      destruct Tr as [n y W|d n y W|y W|y]; simpl in Hd;
        try discriminate; [|congruence].
      exists d, n. repeat split. exact W.
Qed.

(** After 001 is completed: a third ticket is taken, 002 is bumped from
    its row, called and skipped; the record of 001 is what it was. *)
Lemma C6_terminal_never_changes_witness :
  ids_unique (run sampleCompleted []) /\
  nth_error
    (run [Create sampleForm uuid3 5000; Bump uuid2; CallNext 6000; Skip;
          CallNext 7000; Complete [] 8000]
       (run sampleCompleted [])) 0 =
  nth_error (run sampleCompleted []) 0.
Proof.
  assert (U : ids_unique (run sampleCompleted []))
    by (apply sample_ids_unique; reflexivity).
  split; [exact U|].
  apply (C6_terminal_never_changes
           [Create sampleForm uuid3 5000; Bump uuid2; CallNext 6000; Skip;
            CallNext 7000; Complete [] 8000]
           (run sampleCompleted []) 0%nat
           (nth 0 (run sampleCompleted []) ticketA) U);
    reflexivity.
Defined.
